(** * TermChess training layer: board encoder and ChessNet

    A shallow embedding of [src/training/board_encoder.py] and
    [src/training/model.py], followed by the properties of the encoder
    and of the network that the specification states.

    Conventions of the embedding:
    - Python exceptions are values of [Exception]; a function that can
      raise returns a [Result].
    - A numpy array and a torch tensor are a shape and a row-major flat
      list of elements (contiguous storage), so [view] only changes the
      shape and an index [(c, r, f)] is the offset [(c * H + r) * W + f].
    - The elements of arrays and tensors are IEEE binary32 numbers
      ([SpecFloat] with 24 bits of precision): the network's arithmetic
      rounds, overflows and produces infinities, NaN and [-0.0] as
      float32 does.  What PyTorch does not fix (the order in which a
      kernel adds the terms of an inner product, how it accumulates the
      statistics of a channel, the routine behind tanh) is a parameter
      of the model, [torch.Kernels].
    - python-chess and PyTorch are libraries, not code of this
      repository; the parts the source calls are modelled from their
      documented behaviour, in the modules [chess], [np] and [torch]. *)

From Stdlib Require Import List Arith ZArith Lia Bool.
From Stdlib Require Import Floats.SpecFloat.
From stdpp Require Import base list.

(** ** Exceptions *)

Inductive Exception : Set := IndexError | ValueError | RuntimeError.

Inductive Result (A : Type) : Type :=
| Ok (a : A)
| Raise (e : Exception).
Arguments Ok {A} a.
Arguments Raise {A} e.

#[global] Instance Result_ret : MRet Result := fun A a => Ok a.
#[global] Instance Result_bind : MBind Result := fun A B f m =>
  match m with
  | Ok a => f a
  | Raise e => Raise e
  end.

(** A [for] loop whose body may raise: the state is threaded through the
    elements in order and the first exception ends the loop. *)
Fixpoint for_each {A S : Type} (body : S -> A -> Result S) (l : list A) (s : S)
  : Result S :=
  match l with
  | [] => Ok s
  | x :: l' => s' ← body s x; for_each body l' s'
  end.

(** Number of elements of a shape. *)
Definition numel (sh : list nat) : nat := foldr Nat.mul 1 sh.

(** ** python-chess, as far as the encoder queries it *)

Module chess.

(** [chess.Color] is [bool]: [WHITE = True], [BLACK = False]. *)
Definition Color : Set := bool.
Definition WHITE : Color := true.
Definition BLACK : Color := false.

(** [chess.PieceType]: the six kinds, with their integer values 1..6. *)
Inductive PieceType : Set := PAWN | KNIGHT | BISHOP | ROOK | QUEEN | KING.

Definition piece_type_int (pt : PieceType) : nat :=
  match pt with
  | PAWN => 1 | KNIGHT => 2 | BISHOP => 3 | ROOK => 4 | QUEEN => 5 | KING => 6
  end.

Record Piece : Set := mkPiece { piece_type : PieceType; color : Color }.

(** Squares are numbered a1 = 0, b1 = 1, ..., h8 = 63. *)
Definition Square : Set := nat.
Definition SQUARES : list Square := seq 0 64.
Definition square_file (square : Square) : nat := Nat.land square 7.
Definition square_rank (square : Square) : nat := Nat.shiftr square 3.

(** A position, read-only: the queries [encode_board] makes of a
    [chess.Board]. *)
Record Board : Type := mkBoard {
  piece_at : Square -> option Piece;
  turn : Color;
  has_kingside_castling_rights : Color -> bool;
  has_queenside_castling_rights : Color -> bool;
  ep_square : option Square
}.

End chess.

(** ** numpy arrays of dtype float32 *)

Module np.

Inductive DType : Set := float32 | float64.

(** IEEE binary32: 24 bits of precision, exponents below 128. *)
Definition prec32 : Z := 24.
Definition emax32 : Z := 128.
Definition is_binary32 (x : spec_float) : bool := valid_binary prec32 emax32 x.

(** The literals [0.0] and [1.0] stored into a float32 array. *)
Definition f32_zero : spec_float := S754_zero false.
Definition f32_one : spec_float := SFone prec32 emax32.

Record ndarray : Type := mkArray {
  dtype : DType;
  shape : list nat;
  data : list spec_float
}.

(** [np.zeros(shape, dtype=np.float32)] *)
Definition zeros (sh : list nat) (dt : DType) : ndarray :=
  mkArray dt sh (replicate (numel sh) f32_zero).

(** Row-major offset of [(i, j, k)] in an array of shape [(_, d1, d2)]. *)
Definition offset3 (d1 d2 i j k : nat) : nat := (i * d1 + j) * d2 + k.

(** Store [v] at every offset of [idxs]. *)
Definition fill (idxs : list nat) (v : spec_float) (d : list spec_float)
  : list spec_float :=
  foldr (fun p acc => <[p := v]> acc) d idxs.

(** [a[i, j, k]] *)
Definition getitem3 (a : ndarray) (i j k : nat) : Result spec_float :=
  match shape a with
  | [d0; d1; d2] =>
      if (i <? d0) && (j <? d1) && (k <? d2) then
        match data a !! offset3 d1 d2 i j k with
        | Some v => Ok v
        | None => Raise IndexError
        end
      else Raise IndexError
  | _ => Raise IndexError
  end.

(** [a[i, j, k] = v] *)
Definition setitem3 (a : ndarray) (i j k : nat) (v : spec_float) : Result ndarray :=
  match shape a with
  | [d0; d1; d2] =>
      if (i <? d0) && (j <? d1) && (k <? d2) then
        Ok (mkArray (dtype a) (shape a) (<[offset3 d1 d2 i j k := v]> (data a)))
      else Raise IndexError
  | _ => Raise IndexError
  end.

(** [a[i, :, :] = v] *)
Definition setitem_plane (a : ndarray) (i : nat) (v : spec_float) : Result ndarray :=
  match shape a with
  | [d0; d1; d2] =>
      if i <? d0 then
        Ok (mkArray (dtype a) (shape a)
              (fill (flat_map (fun j => map (offset3 d1 d2 i j) (seq 0 d2)) (seq 0 d1))
                 v (data a)))
      else Raise IndexError
  | _ => Raise IndexError
  end.

(** [a[i, :, k] = v] *)
Definition setitem_column (a : ndarray) (i k : nat) (v : spec_float) : Result ndarray :=
  match shape a with
  | [d0; d1; d2] =>
      if (i <? d0) && (k <? d2) then
        Ok (mkArray (dtype a) (shape a)
              (fill (map (fun j => offset3 d1 d2 i j k) (seq 0 d1)) v (data a)))
      else Raise IndexError
  | _ => Raise IndexError
  end.

End np.

(** ** board_encoder.py *)

Module board_encoder.
Import chess.

Definition NUM_CHANNELS : nat := 18.
Definition WHITE_PIECE_OFFSET : nat := 0.
Definition BLACK_PIECE_OFFSET : nat := 6.
Definition SIDE_TO_MOVE_CHANNEL : nat := 12.
Definition CASTLING_WK_CHANNEL : nat := 13.
Definition CASTLING_WQ_CHANNEL : nat := 14.
Definition CASTLING_BK_CHANNEL : nat := 15.
Definition CASTLING_BQ_CHANNEL : nat := 16.
Definition EN_PASSANT_CHANNEL : nat := 17.

(** The channel of a piece: [piece.piece_type - 1] within the band of
    its colour. *)
Definition piece_channel (piece : Piece) : nat :=
  let piece_index := piece_type_int (piece_type piece) - 1 in
  if Bool.eqb (color piece) WHITE then WHITE_PIECE_OFFSET + piece_index
  else BLACK_PIECE_OFFSET + piece_index.

(** Body of the loop over [chess.SQUARES]. *)
Definition encode_square (board : Board) (encoding : np.ndarray) (square : Square)
  : Result np.ndarray :=
  match piece_at board square with
  | Some piece =>
      let rank := square_rank square in
      let file := square_file square in
      let channel := piece_channel piece in
      np.setitem3 encoding channel rank file np.f32_one
  | None => Ok encoding
  end.

Definition encode_board (board : Board) : Result np.ndarray :=
  let encoding := np.zeros [NUM_CHANNELS; 8; 8] np.float32 in
  encoding ← for_each (encode_square board) SQUARES encoding;
  encoding ← (if Bool.eqb (turn board) WHITE
              then np.setitem_plane encoding SIDE_TO_MOVE_CHANNEL np.f32_one
              else Ok encoding);
  encoding ← (if has_kingside_castling_rights board WHITE
              then np.setitem_plane encoding CASTLING_WK_CHANNEL np.f32_one
              else Ok encoding);
  encoding ← (if has_queenside_castling_rights board WHITE
              then np.setitem_plane encoding CASTLING_WQ_CHANNEL np.f32_one
              else Ok encoding);
  encoding ← (if has_kingside_castling_rights board BLACK
              then np.setitem_plane encoding CASTLING_BK_CHANNEL np.f32_one
              else Ok encoding);
  encoding ← (if has_queenside_castling_rights board BLACK
              then np.setitem_plane encoding CASTLING_BQ_CHANNEL np.f32_one
              else Ok encoding);
  encoding ← match ep_square board with
             | Some sq =>
                 let ep_file := square_file sq in
                 np.setitem_column encoding EN_PASSANT_CHANNEL ep_file np.f32_one
             | None => Ok encoding
             end;
  Ok encoding.

End board_encoder.

(** ** float32 arithmetic

    The operations of IEEE binary32, rounding to nearest even, on the
    numbers a float32 tensor holds. *)

Module f32.

Definition zero : spec_float := np.f32_zero.
Definition one : spec_float := np.f32_one.
Definition add : spec_float -> spec_float -> spec_float := SFadd np.prec32 np.emax32.
Definition sub : spec_float -> spec_float -> spec_float := SFsub np.prec32 np.emax32.
Definition mul : spec_float -> spec_float -> spec_float := SFmul np.prec32 np.emax32.
Definition div : spec_float -> spec_float -> spec_float := SFdiv np.prec32 np.emax32.
Definition sqrt : spec_float -> spec_float := SFsqrt np.prec32 np.emax32.
Definition opp : spec_float -> spec_float := SFopp.
Definition ltb : spec_float -> spec_float -> bool := SFltb.
Definition leb : spec_float -> spec_float -> bool := SFleb.

(** The float32 nearest to a natural number. *)
Definition of_nat (n : nat) : spec_float :=
  binary_normalize np.prec32 np.emax32 (Z.of_nat n) 0 false.

(** The float32 nearest to the Python literal [1e-05]. *)
Definition eps_1e_05 : spec_float := S754_finite false 10995116 (-40).

(** The largest float32, [inf], [-0.0], and the powers of two in the
    range of normal numbers. *)
Definition max_float : spec_float := S754_finite false 16777215 104.
Definition pow2 (e : Z) : spec_float := S754_finite false 8388608 (e - 23).

Definition is_nan (x : spec_float) : bool :=
  match x with S754_nan => true | _ => false end.

(** [0.0] or [-0.0] *)
Definition is_zero (x : spec_float) : bool :=
  match x with S754_zero _ => true | _ => false end.

(** Neither an infinity nor NaN. *)
Definition is_finite (x : spec_float) : bool :=
  match x with S754_zero _ | S754_finite _ _ _ => true | _ => false end.

(** [lo <= x <= hi]; false when [x] is NaN. *)
Definition between (lo hi x : spec_float) : bool := leb lo x && leb x hi.

End f32.

(** ** PyTorch, as far as the model uses it

    Tensors hold float32 numbers.  A module's [training] flag, which
    [train()] and [eval()] set on a module and all its submodules at
    once, is passed to [forward] as an argument.  In training mode
    BatchNorm2d also updates its running statistics; that update does
    not enter the tensors the same call returns and is left out. *)

Module torch.

Record Tensor : Type := mkTensor { shape : list nat; data : list spec_float }.

(** [nn.Parameter]: a tensor and its [requires_grad] flag. *)
Record nn_Parameter : Type := mkParameter { p_data : Tensor; requires_grad : bool }.

(** What PyTorch leaves to the build and the machine it runs on, and
    the model therefore takes as given:
    - [k_dot B n xs ws], the inner product of [xs] and [ws] inside a
      convolution or a matrix product, for sample [n] of a batch of [B].
      The order in which a kernel adds the products, and whether it
      fuses them, is its own; it may choose by the size of the batch and
      by the place of the sample in it.
    - [k_mean] and [k_var], the mean and the biased variance of the
      values of one channel, however the kernel accumulates them.
    - [k_tanh], the float32 hyperbolic tangent of the math library. *)
Record Kernels : Type := mkKernels {
  k_dot : nat -> nat -> list spec_float -> list spec_float -> spec_float;
  k_mean : list spec_float -> spec_float;
  k_var : list spec_float -> spec_float;
  k_tanh : spec_float -> spec_float
}.

(** The random number generator behind the default initialisers: an
    unbounded stream of samples, consumed from the front. *)
Definition Generator : Type := nat -> spec_float.

Definition draw (n : nat) (g : Generator) : list spec_float * Generator :=
  (map g (seq 0 n), fun i => g (n + i)).

(** A freshly created parameter of the given shape, filled from the
    generator (the scaling of [kaiming_uniform_] is part of the stream). *)
Definition random_parameter (sh : list nat) (g : Generator) : nn_Parameter * Generator :=
  let '(values, g') := draw (numel sh) g in
  (mkParameter (mkTensor sh values) true, g').

Definition full (sh : list nat) (v : spec_float) : Tensor :=
  mkTensor sh (replicate (numel sh) v).

(** The first [k] consecutive blocks of [n] elements of a flat list: the
    samples of a batch, or the rows of a matrix. *)
Definition chunks {A : Type} (n k : nat) (l : list A) : list (list A) :=
  map (fun i => take n (drop (i * n) l)) (seq 0 k).

(** *** nn.Conv2d with stride 1, zero padding and [bias=False] *)

Record Conv2d : Type := mkConv2d { conv_weight : nn_Parameter; conv_padding : nat }.

Definition Conv2d_init (in_channels out_channels kernel_size padding : nat)
  (g : Generator) : Conv2d * Generator :=
  let '(weight, g') :=
    random_parameter [out_channels; in_channels; kernel_size; kernel_size] g in
  (mkConv2d weight padding, g').

(** Element [(c, i, j)] of a sample of shape [(C, H, W)] seen through
    [pad] rows and columns of zeros on every side; [i] and [j] count
    from the padded corner. *)
Definition padded_at (x : list spec_float) (pad H W c i j : nat) : spec_float :=
  if (pad <=? i) && (i <? pad + H) && (pad <=? j) && (j <? pad + W)
  then nth ((c * H + (i - pad)) * W + (j - pad)) x f32.zero
  else f32.zero.

(** The window of the padded sample under the kernel at output position
    [(i, j)], and the weights of filter [o], both in the order channel,
    kernel row, kernel column. *)
Definition window (x : list spec_float) (C KH KW pad H W i j : nat) : list spec_float :=
  flat_map (fun c =>
    flat_map (fun kh =>
      map (fun kw => padded_at x pad H W c (i + kh) (j + kw)) (seq 0 KW))
      (seq 0 KH))
    (seq 0 C).

Definition filter_weights (w : list spec_float) (C KH KW o : nat) : list spec_float :=
  take (C * (KH * KW)) (drop (o * (C * (KH * KW))) w).

(** Output element [(o, i, j)] of sample [n] of a batch of [B]: the
    cross-correlation of the sample with filter [o] at that position. *)
Definition conv2d_cell (K : Kernels) (B n : nat) (w x : list spec_float)
  (C KH KW pad H W o i j : nat) : spec_float :=
  k_dot K B n (window x C KH KW pad H W i j) (filter_weights w C KH KW o).

Definition conv2d_sample (K : Kernels) (B : nat) (w : list spec_float)
  (Co C KH KW pad H W : nat) (n : nat) (x : list spec_float) : list spec_float :=
  flat_map (fun o =>
    flat_map (fun i =>
      map (fun j => conv2d_cell K B n w x C KH KW pad H W o i j)
        (seq 0 (W + 2 * pad + 1 - KW)))
      (seq 0 (H + 2 * pad + 1 - KH)))
    (seq 0 Co).

(** The input is a batch [(B, C, H, W)] or a single sample [(C, H, W)];
    a weight without output channels, a channel count other than the
    weight's, or a kernel larger than the padded input, is a
    RuntimeError. *)
Definition Conv2d_forward (K : Kernels) (self : Conv2d) (input : Tensor) : Result Tensor :=
  let pad := conv_padding self in
  let w := data (p_data (conv_weight self)) in
  match shape (p_data (conv_weight self)) with
  | [Co; C; KH; KW] =>
      let run (batch : option nat) (Cx H W : nat) : Result Tensor :=
        if (1 <=? Co) && (Cx =? C) && (KH <=? H + 2 * pad) && (KW <=? W + 2 * pad) then
          let Ho := H + 2 * pad + 1 - KH in
          let Wo := W + 2 * pad + 1 - KW in
          let B := default 1 batch in
          Ok (mkTensor
                (match batch with Some B => [B; Co; Ho; Wo] | None => [Co; Ho; Wo] end)
                (concat (imap (conv2d_sample K B w Co C KH KW pad H W)
                           (chunks (Cx * (H * W)) B (data input)))))
        else Raise RuntimeError in
      match shape input with
      | [B; Cx; H; W] => run (Some B) Cx H W
      | [Cx; H; W] => run None Cx H W
      | _ => Raise RuntimeError
      end
  | _ => Raise RuntimeError
  end.

(** *** nn.BatchNorm2d *)

Record BatchNorm2d : Type := mkBatchNorm2d {
  num_features : nat;
  eps : spec_float;
  bn_weight : nn_Parameter;
  bn_bias : nn_Parameter;
  running_mean : Tensor;
  running_var : Tensor
}.

Definition BatchNorm2d_init (num_features : nat) : BatchNorm2d :=
  mkBatchNorm2d num_features f32.eps_1e_05
    (mkParameter (full [num_features] f32.one) true)
    (mkParameter (full [num_features] f32.zero) true)
    (full [num_features] f32.zero)
    (full [num_features] f32.one).

(** Plane [c] of a sample whose planes have [HW] elements. *)
Definition channel_plane (HW c : nat) (sample : list spec_float) : list spec_float :=
  take HW (drop (c * HW) sample).

(** The values of channel [c] over the batch and the plane, from which
    training mode takes the statistics it normalises with. *)
Definition channel_values (HW : nat) (samples : list (list spec_float)) (c : nat)
  : list spec_float :=
  flat_map (channel_plane HW c) samples.

(** [(v - mean) / sqrt(var + eps) * weight + bias] *)
Definition normalize (mean var weight bias eps v : spec_float) : spec_float :=
  f32.add (f32.mul (f32.div (f32.sub v mean) (f32.sqrt (f32.add var eps))) weight) bias.

Definition batch_norm_sample (C HW : nat) (mean var weight bias : nat -> spec_float)
  (eps : spec_float) (sample : list spec_float) : list spec_float :=
  flat_map (fun c =>
    map (normalize (mean c) (var c) (weight c) (bias c) eps) (channel_plane HW c sample))
    (seq 0 C).

(** An input that is not 4-D is a ValueError, and so is, in training
    mode, a batch with a single value per channel; a channel count other
    than [num_features] is a RuntimeError. *)
Definition BatchNorm2d_forward (K : Kernels) (self : BatchNorm2d) (training : bool)
  (input : Tensor) : Result Tensor :=
  match shape input with
  | [B; C; H; W] =>
      if training && (B * (H * W) =? 1) then Raise ValueError
      else if negb (C =? num_features self) then Raise RuntimeError
      else
        let samples := chunks (C * (H * W)) B (data input) in
        let mean c :=
          if training then k_mean K (channel_values (H * W) samples c)
          else nth c (data (running_mean self)) f32.zero in
        let var c :=
          if training then k_var K (channel_values (H * W) samples c)
          else nth c (data (running_var self)) f32.zero in
        let weight c := nth c (data (p_data (bn_weight self))) f32.zero in
        let bias c := nth c (data (p_data (bn_bias self))) f32.zero in
        Ok (mkTensor (shape input)
              (flat_map (batch_norm_sample C (H * W) mean var weight bias (eps self))
                 samples))
  | _ => Raise ValueError
  end.

(** *** nn.Linear, applied to a matrix [(B, in_features)] *)

Record Linear : Type := mkLinear { lin_weight : nn_Parameter; lin_bias : nn_Parameter }.

Definition Linear_init (in_features out_features : nat) (g : Generator)
  : Linear * Generator :=
  let '(weight, g1) := random_parameter [out_features; in_features] g in
  let '(bias, g2) := random_parameter [out_features] g1 in
  (mkLinear weight bias, g2).

(** Row [n] of a batch of [B]: for each output feature, the inner
    product with its row of the weight, plus its bias. *)
Definition linear_row (K : Kernels) (B : nat) (w b : list spec_float) (Kin Co : nat)
  (n : nat) (row : list spec_float) : list spec_float :=
  map (fun o =>
    f32.add (k_dot K B n row (take Kin (drop (o * Kin) w))) (nth o b f32.zero))
    (seq 0 Co).

(** The only inputs [forward] passes are matrices, the result of
    [view(B, -1)]; a row length other than [in_features] is a
    RuntimeError. *)
Definition Linear_forward (K : Kernels) (self : Linear) (input : Tensor) : Result Tensor :=
  match shape (p_data (lin_weight self)), shape input with
  | [Co; Kin], [B; Kx] =>
      if Kx =? Kin then
        Ok (mkTensor [B; Co]
              (concat (imap (linear_row K B (data (p_data (lin_weight self)))
                               (data (p_data (lin_bias self))) Kin Co)
                         (chunks Kx B (data input)))))
      else Raise RuntimeError
  | _, _ => Raise RuntimeError
  end.

(** *** Functions on tensors *)

(** [F.relu], which is [clamp_min(x, 0)]: a negative number becomes
    [0.0]; every other value, [-0.0] and NaN included, is returned as it
    is. *)
Definition relu_f32 (v : spec_float) : spec_float :=
  if f32.ltb v f32.zero then f32.zero else v.

Definition relu (x : Tensor) : Tensor := mkTensor (shape x) (map relu_f32 (data x)).

(** [torch.tanh] *)
Definition tanh (K : Kernels) (x : Tensor) : Tensor :=
  mkTensor (shape x) (map (k_tanh K) (data x)).

(** [a + b] for tensors of one shape, the only case the model reaches
    (other shapes would broadcast or fail). *)
Definition add (a b : Tensor) : Result Tensor :=
  if decide (shape a = shape b)
  then Ok (mkTensor (shape a) (zip_with f32.add (data a) (data b)))
  else Raise RuntimeError.

(** [x.size(0)] *)
Definition size0 (x : Tensor) : Result nat :=
  match shape x with
  | d :: _ => Ok d
  | [] => Raise IndexError
  end.

(** [x.view(d0, -1)]: the second dimension is inferred; it cannot be
    when [d0] is zero or does not divide the number of elements. *)
Definition view_rows (x : Tensor) (d0 : nat) : Result Tensor :=
  if d0 =? 0 then Raise RuntimeError
  else if numel (shape x) mod d0 =? 0
  then Ok (mkTensor [d0; numel (shape x) / d0] (data x))
  else Raise RuntimeError.

End torch.

(** ** model.py *)

Module model.
Import torch.

Definition NUM_CHANNELS : nat := board_encoder.NUM_CHANNELS.
Definition DEFAULT_NUM_BLOCKS : Z := 6.
Definition DEFAULT_NUM_FILTERS : nat := 128.
Definition POLICY_OUTPUT_SIZE : nat := 4096.
Definition BOARD_SIZE : nat := 8.

(** *** ResidualBlock *)

Record ResidualBlock : Type := mkResidualBlock {
  conv1 : Conv2d;
  bn1 : BatchNorm2d;
  conv2 : Conv2d;
  bn2 : BatchNorm2d
}.

Definition ResidualBlock_init (num_filters : nat) (g : Generator)
  : ResidualBlock * Generator :=
  let '(conv1, g1) := Conv2d_init num_filters num_filters 3 1 g in
  let bn1 := BatchNorm2d_init num_filters in
  let '(conv2, g2) := Conv2d_init num_filters num_filters 3 1 g1 in
  let bn2 := BatchNorm2d_init num_filters in
  (mkResidualBlock conv1 bn1 conv2 bn2, g2).

Definition ResidualBlock_forward (K : Kernels) (self : ResidualBlock) (training : bool)
  (x : Tensor) : Result Tensor :=
  let identity := x in
  out ← Conv2d_forward K (conv1 self) x;
  out ← BatchNorm2d_forward K (bn1 self) training out;
  let out := relu out in
  out ← Conv2d_forward K (conv2 self) out;
  out ← BatchNorm2d_forward K (bn2 self) training out;
  out ← add out identity;
  let out := relu out in
  Ok out.

(** [block.parameters()], in registration order. *)
Definition ResidualBlock_parameters (self : ResidualBlock) : list nn_Parameter :=
  [conv_weight (conv1 self); bn_weight (bn1 self); bn_bias (bn1 self);
   conv_weight (conv2 self); bn_weight (bn2 self); bn_bias (bn2 self)].

(** *** ChessNet *)

Record ChessNet : Type := mkChessNet {
  num_blocks : Z;
  num_filters : nat;
  initial_conv : Conv2d;
  initial_bn : BatchNorm2d;
  residual_blocks : list ResidualBlock;
  policy_conv : Conv2d;
  policy_bn : BatchNorm2d;
  policy_fc : Linear;
  value_conv : Conv2d;
  value_bn : BatchNorm2d;
  value_fc1 : Linear;
  value_fc2 : Linear
}.

(** Python's [range(n)]: empty when [n] is zero or negative. *)
Definition range (n : Z) : list Z := map Z.of_nat (seq 0 (Z.to_nat n)).

(** [[ResidualBlock(num_filters) for _ in range(num_blocks)]] *)
Fixpoint residual_tower (idxs : list Z) (num_filters : nat) (g : Generator)
  : list ResidualBlock * Generator :=
  match idxs with
  | [] => ([], g)
  | _ :: rest =>
      let '(block, g1) := ResidualBlock_init num_filters g in
      let '(blocks, g2) := residual_tower rest num_filters g1 in
      (block :: blocks, g2)
  end.

Definition ChessNet_init (num_blocks : Z) (num_filters : nat) (g : Generator) : ChessNet :=
  let '(initial_conv, g) := Conv2d_init NUM_CHANNELS num_filters 3 1 g in
  let initial_bn := BatchNorm2d_init num_filters in
  let '(residual_blocks, g) := residual_tower (range num_blocks) num_filters g in
  let '(policy_conv, g) := Conv2d_init num_filters 2 1 0 g in
  let policy_bn := BatchNorm2d_init 2 in
  let '(policy_fc, g) := Linear_init (2 * BOARD_SIZE * BOARD_SIZE) POLICY_OUTPUT_SIZE g in
  let '(value_conv, g) := Conv2d_init num_filters 1 1 0 g in
  let value_bn := BatchNorm2d_init 1 in
  let '(value_fc1, g) := Linear_init (1 * BOARD_SIZE * BOARD_SIZE) 256 g in
  let '(value_fc2, g) := Linear_init 256 1 g in
  mkChessNet num_blocks num_filters initial_conv initial_bn residual_blocks
    policy_conv policy_bn policy_fc value_conv value_bn value_fc1 value_fc2.

Definition forward (K : Kernels) (self : ChessNet) (training : bool) (x : Tensor)
  : Result (Tensor * Tensor) :=
  (* initial convolution *)
  x ← Conv2d_forward K (initial_conv self) x;
  x ← BatchNorm2d_forward K (initial_bn self) training x;
  let x := relu x in
  (* residual tower *)
  x ← for_each (fun x block => ResidualBlock_forward K block training x)
        (residual_blocks self) x;
  (* policy head *)
  policy ← Conv2d_forward K (policy_conv self) x;
  policy ← BatchNorm2d_forward K (policy_bn self) training policy;
  let policy := relu policy in
  size ← size0 policy;
  policy ← view_rows policy size;
  policy_logits ← Linear_forward K (policy_fc self) policy;
  (* value head *)
  value ← Conv2d_forward K (value_conv self) x;
  value ← BatchNorm2d_forward K (value_bn self) training value;
  let value := relu value in
  size ← size0 value;
  value ← view_rows value size;
  value ← Linear_forward K (value_fc1 self) value;
  let value := relu value in
  value ← Linear_forward K (value_fc2 self) value;
  let value := tanh K value in
  Ok (policy_logits, value).

Definition Linear_parameters (l : Linear) : list nn_Parameter := [lin_weight l; lin_bias l].

(** [self.parameters()], in registration order. *)
Definition parameters (self : ChessNet) : list nn_Parameter :=
  [conv_weight (initial_conv self);
   bn_weight (initial_bn self); bn_bias (initial_bn self)]
  ++ flat_map ResidualBlock_parameters (residual_blocks self)
  ++ [conv_weight (policy_conv self);
      bn_weight (policy_bn self); bn_bias (policy_bn self)]
  ++ Linear_parameters (policy_fc self)
  ++ [conv_weight (value_conv self);
      bn_weight (value_bn self); bn_bias (value_bn self)]
  ++ Linear_parameters (value_fc1 self)
  ++ Linear_parameters (value_fc2 self).

(** [p.numel()] *)
Definition nn_Parameter_numel (p : nn_Parameter) : Z := Z.of_nat (numel (shape (p_data p))).

(** [sum(...)] of Python integers. *)
Definition py_sum (l : list Z) : Z := foldr Z.add 0%Z l.

Definition count_parameters (self : ChessNet) : Z :=
  py_sum (map nn_Parameter_numel (List.filter requires_grad (parameters self))).

End model.

(** ** Vocabulary of the statements *)

(** The standard starting position, as [chess.Board()] gives it. *)
Definition back_rank (f : nat) : option chess.PieceType :=
  match f with
  | 0 | 7 => Some chess.ROOK
  | 1 | 6 => Some chess.KNIGHT
  | 2 | 5 => Some chess.BISHOP
  | 3 => Some chess.QUEEN
  | 4 => Some chess.KING
  | _ => None
  end.

Definition starting_piece_at (sq : chess.Square) : option chess.Piece :=
  let r := sq / 8 in
  let f := sq mod 8 in
  if r =? 0 then (fun pt => chess.mkPiece pt chess.WHITE) <$> back_rank f
  else if r =? 1 then Some (chess.mkPiece chess.PAWN chess.WHITE)
  else if r =? 6 then Some (chess.mkPiece chess.PAWN chess.BLACK)
  else if r =? 7 then (fun pt => chess.mkPiece pt chess.BLACK) <$> back_rank f
  else None.

Definition starting_board : chess.Board :=
  chess.mkBoard starting_piece_at chess.WHITE (fun _ => true) (fun _ => true) None.

(** The starting position after 1. e4: the pawn stands on e4 (square
    28) and the en-passant target is e3 (square 20). *)
Definition after_e4 : chess.Board :=
  chess.mkBoard
    (fun sq => if sq =? 12 then None
               else if sq =? 28 then Some (chess.mkPiece chess.PAWN chess.WHITE)
               else starting_piece_at sq)
    chess.BLACK (fun _ => true) (fun _ => true) (Some 20).

(** The array holds the 18 x 8 x 8 float32 planes whose cell [(c, r, f)]
    is [1.0] where [g c r f] holds and [0.0] elsewhere. *)
Definition bit_value (b : bool) : spec_float := if b then np.f32_one else np.f32_zero.

Definition cells (a : np.ndarray) (g : nat -> nat -> nat -> bool) : Prop :=
  np.dtype a = np.float32 /\ np.shape a = [18; 8; 8] /\ length (np.data a) = 1152 /\
  forall c r f, c < 18 -> r < 8 -> f < 8 ->
    np.data a !! np.offset3 8 8 c r f = Some (bit_value (g c r f)).

(** Piece kind ordinal and owner band, as the plane table gives them. *)
Definition kind_ordinal (pt : chess.PieceType) : nat :=
  match pt with
  | chess.PAWN => 0 | chess.KNIGHT => 1 | chess.BISHOP => 2
  | chess.ROOK => 3 | chess.QUEEN => 4 | chess.KING => 5
  end.

Definition owner_band (c : chess.Color) : nat := if c then 0 else 6.

Definition piece_plane (p : chess.Piece) : nat :=
  owner_band (chess.color p) + kind_ordinal (chess.piece_type p).

(** What the encoder writes, cell by cell. *)
Definition plane_bit (b : chess.Board) (c r f : nat) : bool :=
  if c <? 12 then
    match chess.piece_at b (8 * r + f) with
    | Some p => piece_plane p =? c
    | None => false
    end
  else if c =? 12 then Bool.eqb (chess.turn b) chess.WHITE
  else if c =? 13 then chess.has_kingside_castling_rights b chess.WHITE
  else if c =? 14 then chess.has_queenside_castling_rights b chess.WHITE
  else if c =? 15 then chess.has_kingside_castling_rights b chess.BLACK
  else if c =? 16 then chess.has_queenside_castling_rights b chess.BLACK
  else match chess.ep_square b with
       | Some sq => f =? sq mod 8
       | None => false
       end.

(** The four castling permissions and their planes. *)
Inductive CastlingRight : Set := WK | WQ | BK | BQ.

Definition has_right (b : chess.Board) (k : CastlingRight) : bool :=
  match k with
  | WK => chess.has_kingside_castling_rights b chess.WHITE
  | WQ => chess.has_queenside_castling_rights b chess.WHITE
  | BK => chess.has_kingside_castling_rights b chess.BLACK
  | BQ => chess.has_queenside_castling_rights b chess.BLACK
  end.

Definition castling_plane (k : CastlingRight) : nat :=
  match k with WK => 13 | WQ => 14 | BK => 15 | BQ => 16 end.

(** [P'] is [P] without the permission [k], which [P] holds. *)
Definition lacks_only (P P' : chess.Board) (k : CastlingRight) : Prop :=
  (forall sq, chess.piece_at P' sq = chess.piece_at P sq) /\
  chess.turn P' = chess.turn P /\
  chess.ep_square P' = chess.ep_square P /\
  has_right P k = true /\ has_right P' k = false /\
  forall k', k' <> k -> has_right P' k' = has_right P k'.

(** The starting position without White's kingside permission. *)
Definition starting_board_no_WK : chess.Board :=
  chess.mkBoard starting_piece_at chess.WHITE
    (fun c => negb c) (fun _ => true) None.

(** The cells set by the loop once it has visited the squares below [n]. *)
Definition placed (b : chess.Board) (n c r f : nat) : bool :=
  (8 * r + f <? n) &&
  match chess.piece_at b (8 * r + f) with
  | Some p => piece_plane p =? c
  | None => false
  end.


(** Stages of [model.forward]: the input projection, the residual
    tower and the two heads. *)
Definition input_projection (K : torch.Kernels) (self : model.ChessNet) (training : bool)
  (x : torch.Tensor) : Result torch.Tensor :=
  x ← torch.Conv2d_forward K (model.initial_conv self) x;
  x ← torch.BatchNorm2d_forward K (model.initial_bn self) training x;
  Ok (torch.relu x).

Definition tower (K : torch.Kernels) (blocks : list model.ResidualBlock) (training : bool)
  (x : torch.Tensor) : Result torch.Tensor :=
  for_each (fun x block => model.ResidualBlock_forward K block training x) blocks x.

Definition policy_head (K : torch.Kernels) (self : model.ChessNet) (training : bool)
  (x : torch.Tensor) : Result torch.Tensor :=
  policy ← torch.Conv2d_forward K (model.policy_conv self) x;
  policy ← torch.BatchNorm2d_forward K (model.policy_bn self) training policy;
  let policy := torch.relu policy in
  size ← torch.size0 policy;
  policy ← torch.view_rows policy size;
  torch.Linear_forward K (model.policy_fc self) policy.

Definition value_head (K : torch.Kernels) (self : model.ChessNet) (training : bool)
  (x : torch.Tensor) : Result torch.Tensor :=
  value ← torch.Conv2d_forward K (model.value_conv self) x;
  value ← torch.BatchNorm2d_forward K (model.value_bn self) training value;
  let value := torch.relu value in
  size ← torch.size0 value;
  value ← torch.view_rows value size;
  value ← torch.Linear_forward K (model.value_fc1 self) value;
  let value := torch.relu value in
  value ← torch.Linear_forward K (model.value_fc2 self) value;
  Ok (torch.tanh K value).

(** A parameter of the given shape, holding as many numbers as the
    shape says. *)
Definition param_shaped (p : torch.nn_Parameter) (sh : list nat) : Prop :=
  torch.shape (torch.p_data p) = sh /\
  length (torch.data (torch.p_data p)) = numel sh.

Definition Conv2d_wf (m : torch.Conv2d) (C Co K pad : nat) : Prop :=
  param_shaped (torch.conv_weight m) [Co; C; K; K] /\ torch.conv_padding m = pad.

Definition BatchNorm2d_wf (m : torch.BatchNorm2d) (C : nat) : Prop :=
  torch.num_features m = C /\
  param_shaped (torch.bn_weight m) [C] /\ param_shaped (torch.bn_bias m) [C].

Definition Linear_wf (m : torch.Linear) (K Co : nat) : Prop :=
  param_shaped (torch.lin_weight m) [Co; K] /\ param_shaped (torch.lin_bias m) [Co].

Definition ResidualBlock_wf (F : nat) (b : model.ResidualBlock) : Prop :=
  Conv2d_wf (model.conv1 b) F F 3 1 /\ BatchNorm2d_wf (model.bn1 b) F /\
  Conv2d_wf (model.conv2 b) F F 3 1 /\ BatchNorm2d_wf (model.bn2 b) F.

(** A network with [F >= 1] filters whose parameters have the shapes
    [ChessNet.__init__] creates them with; their values are arbitrary,
    as after any amount of training. *)
Definition ChessNet_wf (F : nat) (m : model.ChessNet) : Prop :=
  1 <= F /\
  Conv2d_wf (model.initial_conv m) 18 F 3 1 /\
  BatchNorm2d_wf (model.initial_bn m) F /\
  Forall (ResidualBlock_wf F) (model.residual_blocks m) /\
  Conv2d_wf (model.policy_conv m) F 2 1 0 /\
  BatchNorm2d_wf (model.policy_bn m) 2 /\
  Linear_wf (model.policy_fc m) 128 4096 /\
  Conv2d_wf (model.value_conv m) F 1 1 0 /\
  BatchNorm2d_wf (model.value_bn m) 1 /\
  Linear_wf (model.value_fc1 m) 64 256 /\
  Linear_wf (model.value_fc2 m) 256 1.





(** Lists of zeros of either sign, and of numbers that are neither
    infinite nor NaN. *)
Definition zeros (l : list spec_float) : Prop := Forall (fun v => f32.is_zero v = true) l.
Definition finite (l : list spec_float) : Prop := Forall (fun v => f32.is_finite v = true) l.



(** *** Kernels

    Properties that hold of a kernel whatever order it adds in, and the
    property that does not: *)



(** The hyperbolic tangent returns NaN or a number of [[-1, 1]]. *)
Definition tanh_in_range (K : torch.Kernels) : Prop :=
  forall x, torch.k_tanh K x = S754_nan \/
            f32.between (f32.opp f32.one) f32.one (torch.k_tanh K x) = true.

(** The inner product of a sample does not depend on the size of the
    batch nor on the place of the sample in it: the kernel adds in one
    order everywhere. *)
Definition batch_independent (K : torch.Kernels) : Prop :=
  forall B n B' n' xs ws, torch.k_dot K B n xs ws = torch.k_dot K B' n' xs ws.

(** Inner products that add the products one by one, from the first to
    the last or from the last to the first. *)
Definition dot_forwards (xs ws : list spec_float) : spec_float :=
  foldl (fun acc p => f32.add acc (f32.mul p.1 p.2)) f32.zero (zip xs ws).

Definition dot_backwards (xs ws : list spec_float) : spec_float :=
  foldr (fun p acc => f32.add (f32.mul p.1 p.2) acc) f32.zero (zip xs ws).

(** Mean and biased variance in two passes. *)
Definition sum_forwards (l : list spec_float) : spec_float := foldl f32.add f32.zero l.

Definition mean_two_pass (l : list spec_float) : spec_float :=
  f32.div (sum_forwards l) (f32.of_nat (length l)).

Definition var_two_pass (l : list spec_float) : spec_float :=
  let m := mean_two_pass l in
  f32.div (sum_forwards (map (fun v => f32.mul (f32.sub v m) (f32.sub v m)) l))
    (f32.of_nat (length l)).

(** A float32 tanh of the kind a math library has: saturated beyond
    [|x| = 9], a rational approximation [x (27 + x^2) / (27 + 9 x^2)]
    below, kept within [[-1, 1]]. *)
Definition clamp_unit (y : spec_float) : spec_float :=
  if f32.between (f32.opp f32.one) f32.one y then y
  else if f32.ltb y (f32.opp f32.one) then f32.opp f32.one
  else if f32.ltb f32.one y then f32.one
  else S754_nan.

Definition tanh_rational (x : spec_float) : spec_float :=
  if f32.is_nan x then S754_nan
  else if f32.ltb (f32.of_nat 9) x then f32.one
  else if f32.ltb x (f32.opp (f32.of_nat 9)) then f32.opp f32.one
  else
    let x2 := f32.mul x x in
    clamp_unit (f32.div (f32.mul x (f32.add (f32.of_nat 27) x2))
                  (f32.add (f32.of_nat 27) (f32.mul (f32.of_nat 9) x2))).

(** Kernels that add from the first product to the last, whatever the
    batch. *)
Definition sequential : torch.Kernels :=
  torch.mkKernels (fun _ _ => dot_forwards) mean_two_pass var_two_pass tanh_rational.


(** The constant generator, and a generator that counts. *)
Definition zero_generator : torch.Generator := fun _ => f32.zero.
Definition counting_generator : torch.Generator := fun i => f32.of_nat i.

(** [ChessNet(num_blocks=0, num_filters=1)] with its normalisations as
    created, the weights of the convolutions and of the policy head
    1.0, and small weights in the value head, the last of them
    negative. *)
Definition small_net : model.ChessNet :=
  let param sh v := torch.mkParameter (torch.full sh v) true in
  model.mkChessNet 0 1
    (torch.mkConv2d (param [1; 18; 3; 3] f32.one) 1)
    (torch.BatchNorm2d_init 1)
    []
    (torch.mkConv2d (param [2; 1; 1; 1] f32.one) 0)
    (torch.BatchNorm2d_init 2)
    (torch.mkLinear (param [4096; 128] f32.one) (param [4096] f32.one))
    (torch.mkConv2d (param [1; 1; 1; 1] f32.one) 0)
    (torch.BatchNorm2d_init 1)
    (torch.mkLinear (param [256; 64] (f32.pow2 (-10))) (param [256] f32.zero))
    (torch.mkLinear
       (torch.mkParameter
          (torch.mkTensor [1; 256]
             (replicate 255 (f32.pow2 (-8)) ++ [f32.opp (f32.pow2 (-8))]))
          true)
       (param [1] f32.zero)).




(** [torch.stack]: the batch of the given samples, each the flat content
    of a tensor of shape [sh]. *)
Definition stack (sh : list nat) (xs : list (list spec_float)) : torch.Tensor :=
  torch.mkTensor (length xs :: sh) (concat xs).

(** Row [i] of a matrix with [n] columns. *)
Definition row (n i : nat) (t : torch.Tensor) : list spec_float :=
  take n (drop (i * n) (torch.data t)).

(** What the layers compute on one sample in inference mode, where
    normalisation uses the running statistics, with the inner products
    of a batch of one. *)
Definition Conv2d_sample (K : torch.Kernels) (m : torch.Conv2d) (C Co Ks H W : nat)
  (s : list spec_float) : list spec_float :=
  torch.conv2d_sample K 1 (torch.data (torch.p_data (torch.conv_weight m))) Co C Ks Ks
    (torch.conv_padding m) H W 0 s.

Definition BatchNorm2d_sample (m : torch.BatchNorm2d) (C HW : nat) (s : list spec_float)
  : list spec_float :=
  torch.batch_norm_sample C HW
    (fun c => nth c (torch.data (torch.running_mean m)) f32.zero)
    (fun c => nth c (torch.data (torch.running_var m)) f32.zero)
    (fun c => nth c (torch.data (torch.p_data (torch.bn_weight m))) f32.zero)
    (fun c => nth c (torch.data (torch.p_data (torch.bn_bias m))) f32.zero)
    (torch.eps m) s.

Definition Linear_sample (K : torch.Kernels) (m : torch.Linear) (Kin Co : nat)
  (s : list spec_float) : list spec_float :=
  torch.linear_row K 1 (torch.data (torch.p_data (torch.lin_weight m)))
    (torch.data (torch.p_data (torch.lin_bias m))) Kin Co 0 s.

Definition relu_sample (s : list spec_float) : list spec_float := map torch.relu_f32 s.

Definition block_sample (K : torch.Kernels) (F H W : nat) (b : model.ResidualBlock)
  (s : list spec_float) : list spec_float :=
  let out := Conv2d_sample K (model.conv1 b) F F 3 H W s in
  let out := relu_sample (BatchNorm2d_sample (model.bn1 b) F (H * W) out) in
  let out := Conv2d_sample K (model.conv2 b) F F 3 H W out in
  let out := BatchNorm2d_sample (model.bn2 b) F (H * W) out in
  relu_sample (zip_with f32.add out s).

Definition trunk_sample (K : torch.Kernels) (F : nat) (m : model.ChessNet)
  (s : list spec_float) : list spec_float :=
  let s := Conv2d_sample K (model.initial_conv m) 18 F 3 8 8 s in
  let s := relu_sample (BatchNorm2d_sample (model.initial_bn m) F 64 s) in
  foldl (fun s b => block_sample K F 8 8 b s) s (model.residual_blocks m).

Definition policy_sample (K : torch.Kernels) (F : nat) (m : model.ChessNet)
  (s : list spec_float) : list spec_float :=
  let p := Conv2d_sample K (model.policy_conv m) F 2 1 8 8 (trunk_sample K F m s) in
  let p := relu_sample (BatchNorm2d_sample (model.policy_bn m) 2 64 p) in
  Linear_sample K (model.policy_fc m) 128 4096 p.

Definition value_sample (K : torch.Kernels) (F : nat) (m : model.ChessNet)
  (s : list spec_float) : list spec_float :=
  let v := Conv2d_sample K (model.value_conv m) F 1 1 8 8 (trunk_sample K F m s) in
  let v := relu_sample (BatchNorm2d_sample (model.value_bn m) 1 64 v) in
  let v := relu_sample (Linear_sample K (model.value_fc1 m) 64 256 v) in
  map (torch.k_tanh K) (Linear_sample K (model.value_fc2 m) 256 1 v).

(** The tensor is a batch with one sample per element of [xs]: the
    sample of [x] has shape [sh] and content [h x]. *)
Definition per_sample (t : torch.Tensor) (sh : list nat)
  (h : list spec_float -> list spec_float) (xs : list (list spec_float)) : Prop :=
  torch.shape t = length xs :: sh /\
  torch.data t = concat (map h xs) /\
  forall x, In x xs -> length (h x) = numel sh.

(** ** Devices, and tensors made from arrays

    The remaining functions of the two files: device detection, the
    tensor form of the encoder and the model factory.  A device is a tag
    carried beside a tensor or a module; it has no part in the numbers. *)

Module torch_device.

(** [torch.device("cpu")], [torch.device("cuda")], [torch.device("mps")] *)
Inductive device : Set := cpu | cuda | mps.

(** What [torch.backends.mps.is_available()] and
    [torch.cuda.is_available()] answer on the running machine. *)
Record Backends : Set := mkBackends {
  mps_is_available : bool;
  cuda_is_available : bool
}.

(** The CPU is always there; the other devices when their backend says
    so. *)
Definition is_available (backends : Backends) (d : device) : bool :=
  match d with
  | cpu => true
  | cuda => cuda_is_available backends
  | mps => mps_is_available backends
  end.

(** A tensor or a module together with the device that holds it. *)
Record Placed (A : Type) : Type := mkPlaced { payload : A; on : device }.
Arguments mkPlaced {A} payload on.
Arguments payload {A} p.
Arguments on {A} p.

(** [x.to(device)]: moving to a device that is not available is a
    RuntimeError. *)
Definition to {A : Type} (backends : Backends) (x : Placed A) (d : device)
  : Result (Placed A) :=
  if is_available backends d then Ok (mkPlaced (payload x) d)
  else Raise RuntimeError.

(** [torch.from_numpy(a)]: same shape and content, on the CPU. *)
Definition from_numpy (a : np.ndarray) : Placed torch.Tensor :=
  mkPlaced (torch.mkTensor (np.shape a) (np.data a)) cpu.

(** [x.unsqueeze(0)] *)
Definition unsqueeze0 (x : torch.Tensor) : torch.Tensor :=
  torch.mkTensor (1 :: torch.shape x) (torch.data x).

(** [torch.stack(tensors)]: a new leading dimension; an empty list or
    tensors of different shapes are a RuntimeError. *)
Definition stack (tensors : list torch.Tensor) : Result torch.Tensor :=
  match tensors with
  | [] => Raise RuntimeError
  | t :: rest =>
      if forallb (fun u => bool_decide (torch.shape u = torch.shape t)) rest
      then Ok (torch.mkTensor (length tensors :: torch.shape t)
                 (flat_map torch.data tensors))
      else Raise RuntimeError
  end.

End torch_device.

(** [board_encoder.get_device] *)
Definition get_device (backends : torch_device.Backends) : torch_device.device :=
  if torch_device.mps_is_available backends then torch_device.mps
  else if torch_device.cuda_is_available backends then torch_device.cuda
  else torch_device.cpu.

(** [board_encoder.encode_board_tensor] *)
Definition encode_board_tensor (backends : torch_device.Backends) (board : chess.Board)
  (device : torch_device.device) : Result (torch_device.Placed torch.Tensor) :=
  encoding ← board_encoder.encode_board board;
  let tensor := torch_device.from_numpy encoding in
  torch_device.to backends tensor device.


(** ** Further vocabulary *)

(** The file of the en-passant target, when there is one. *)
Definition ep_file (b : chess.Board) : option nat := chess.square_file <$> chess.ep_square b.

(** Two positions that answer alike to every query of the encoder: the
    pieces on the 64 squares, the side to move, the four castling
    permissions and the file of the en-passant target. *)
Definition same_view (b b' : chess.Board) : Prop :=
  (forall sq, sq < 64 -> chess.piece_at b sq = chess.piece_at b' sq) /\
  chess.turn b = chess.turn b' /\
  (forall k, has_right b k = has_right b' k) /\
  ep_file b = ep_file b'.

(** Number of cells that hold 1.0. *)
Definition count_ones (l : list spec_float) : nat :=
  length (List.filter (SFeqb np.f32_one) l).

(** The occupied squares of the board. *)
Definition occupied (b : chess.Board) (sq : chess.Square) : bool :=
  match chess.piece_at b sq with Some _ => true | None => false end.

Definition occupied_squares (b : chess.Board) : list chess.Square :=
  List.filter (occupied b) chess.SQUARES.

(** Plane [c] of an 18 x 8 x 8 array, row by row. *)
Definition plane (a : np.ndarray) (c : nat) : list (Result spec_float) :=
  flat_map (fun r => map (fun f => np.getitem3 a c r f) (seq 0 8)) (seq 0 8).

(** A tensor holding as many numbers as its shape says. *)
Definition Tensor_wf (t : torch.Tensor) : Prop :=
  length (torch.data t) = numel (torch.shape t).

(** Two networks with the same trunk and the same policy head. *)
Definition same_policy_path (m m' : model.ChessNet) : Prop :=
  model.initial_conv m = model.initial_conv m' /\
  model.initial_bn m = model.initial_bn m' /\
  model.residual_blocks m = model.residual_blocks m' /\
  model.policy_conv m = model.policy_conv m' /\
  model.policy_bn m = model.policy_bn m' /\
  model.policy_fc m = model.policy_fc m'.

(** Two networks with the same trunk and the same value head. *)
Definition same_value_path (m m' : model.ChessNet) : Prop :=
  model.initial_conv m = model.initial_conv m' /\
  model.initial_bn m = model.initial_bn m' /\
  model.residual_blocks m = model.residual_blocks m' /\
  model.value_conv m = model.value_conv m' /\
  model.value_bn m = model.value_bn m' /\
  model.value_fc1 m = model.value_fc1 m' /\
  model.value_fc2 m = model.value_fc2 m'.

(** A board with kings only, and two positions for a batch. *)
Definition kings_only : chess.Board :=
  chess.mkBoard
    (fun sq => if sq =? 4 then Some (chess.mkPiece chess.KING chess.WHITE)
               else if sq =? 60 then Some (chess.mkPiece chess.KING chess.BLACK)
               else None)
    chess.WHITE (fun _ => false) (fun _ => false) None.

(** * Sanity checks on concrete inputs *)

Section Examples.
Import chess board_encoder torch model.

Example encode_starting_board :
  exists enc, encode_board starting_board = Ok enc /\
    length (List.filter (SFeqb np.f32_one) (take 768 (np.data enc))) = 32 /\
    take 320 (drop 768 (np.data enc)) = replicate 320 np.f32_one /\
    drop 1088 (np.data enc) = replicate 64 np.f32_zero.
Proof. eexists. split; [vm_compute; reflexivity|]. vm_compute. auto. Qed.

Example encode_after_e4 :
  exists enc, encode_board after_e4 = Ok enc /\
    np.getitem3 enc 0 3 4 = Ok np.f32_one /\
    np.getitem3 enc 0 1 4 = Ok np.f32_zero /\
    np.getitem3 enc 12 0 0 = Ok np.f32_zero /\
    map (fun r => np.getitem3 enc 17 r 4) (seq 0 8) = replicate 8 (Ok np.f32_one) /\
    map (fun f => np.getitem3 enc 17 2 f) [0; 1; 2; 3; 5; 6; 7] = replicate 7 (Ok np.f32_zero).
Proof. eexists. split; [vm_compute; reflexivity|]. vm_compute. auto 10. Qed.

Example range_negative : range (-3) = [] /\ range 2 = [0%Z; 1%Z].
Proof. split; reflexivity. Qed.

Example conv2d_sample_3x3 :
  conv2d_sample sequential 1 (replicate 9 f32.one) 1 1 3 3 1 2 2 0
    (map f32.of_nat [1; 2; 3; 4])
  = replicate 4 (f32.of_nat 10).
Proof. vm_compute. reflexivity. Qed.

Example conv2d_sample_corner :
  conv2d_sample sequential 1 (f32.one :: replicate 8 f32.zero) 1 1 3 3 1 2 2 0
    (map f32.of_nat [1; 2; 3; 4])
  = [f32.zero; f32.zero; f32.zero; f32.one].
Proof. vm_compute. reflexivity. Qed.

Example batch_statistics :
  k_mean sequential (channel_values 2 [map f32.of_nat [1; 3]; map f32.of_nat [5; 7]] 0)
    = f32.of_nat 4 /\
  k_var sequential (channel_values 2 [map f32.of_nat [1; 3]; map f32.of_nat [5; 7]] 0)
    = f32.of_nat 5.
Proof. split; vm_compute; reflexivity. Qed.

(** The statistics of training mode change with the rest of the batch. *)
Example batch_mean_depends_on_batch :
  k_mean sequential (channel_values 2 [map f32.of_nat [0; 2]] 0) = f32.of_nat 1 /\
  k_mean sequential (channel_values 2 [map f32.of_nat [0; 2]; map f32.of_nat [4; 6]] 0)
    = f32.of_nat 3.
Proof. split; vm_compute; reflexivity. Qed.

Example linear_row_2x2 :
  linear_row sequential 1 (map f32.of_nat [1; 2; 3; 4]) (map f32.of_nat [10; 20]) 2 2 0
    [f32.one; f32.one]
  = map f32.of_nat [13; 27].
Proof. vm_compute. reflexivity. Qed.

(** float32 is not the real numbers: adding 1 to 2^24 (mantissa 2^23,
    exponent 1) changes nothing,
    the order of the additions shows in the sum, an overflow gives an
    infinity, and [relu] keeps [-0.0] and NaN. *)
Example float32_rounds :
  f32.add (S754_finite false 8388608 1) f32.one = S754_finite false 8388608 1 /\
  dot_forwards [S754_finite false 8388608 1; f32.one; f32.one] (replicate 3 f32.one)
    = S754_finite false 8388608 1 /\
  dot_backwards [S754_finite false 8388608 1; f32.one; f32.one] (replicate 3 f32.one)
    = S754_finite false 8388609 1 /\
  f32.mul (S754_finite false 16777215 104) (f32.of_nat 2) = S754_infinity false /\
  f32.sub (S754_infinity false) (S754_infinity false) = S754_nan /\
  f32.mul f32.zero (S754_infinity false) = S754_nan /\
  relu_f32 (S754_zero true) = S754_zero true /\
  relu_f32 S754_nan = S754_nan /\
  relu_f32 (f32.opp f32.one) = f32.zero.
Proof. vm_compute. repeat split. Qed.

Example tanh_rational_values :
  tanh_rational f32.zero = f32.zero /\
  tanh_rational (S754_infinity false) = f32.one /\
  tanh_rational (S754_infinity true) = f32.opp f32.one /\
  tanh_rational S754_nan = S754_nan /\
  f32.between (S754_finite false 13000000 (-24)) (S754_finite false 13100000 (-24))
    (tanh_rational f32.one) = true.
Proof. vm_compute. repeat split. Qed.

Example view_rows_flatten l :
  view_rows (mkTensor [2; 3; 1; 1] l) 2 = Ok (mkTensor [2; 3] l) /\
  view_rows (mkTensor [0; 3; 1; 1] l) 0 = Raise RuntimeError.
Proof. split; reflexivity. Qed.

End Examples.

(** * Properties of the encoder *)

Section EncoderFacts.
Import chess board_encoder.

Lemma square_rank_div sq : square_rank sq = sq / 8.
Proof. exact (Nat.shiftr_div_pow2 sq 3). Qed.

Lemma square_file_mod sq : square_file sq = sq mod 8.
Proof. exact (Nat.land_ones sq 3). Qed.

Lemma square_file_lt sq : square_file sq < 8.
Proof. rewrite square_file_mod. apply Nat.mod_upper_bound. lia. Qed.

Lemma piece_channel_plane p : piece_channel p = piece_plane p.
Proof. destruct p as [[] []]; reflexivity. Qed.

Lemma piece_plane_lt p : piece_plane p < 12.
Proof. destruct p as [[] []]; cbn; lia. Qed.

Lemma offset3_inj c r f c' r' f' :
  r < 8 -> f < 8 -> r' < 8 -> f' < 8 ->
  np.offset3 8 8 c r f = np.offset3 8 8 c' r' f' -> c = c' /\ r = r' /\ f = f'.
Proof. unfold np.offset3. lia. Qed.

Lemma offset3_lt c r f : c < 18 -> r < 8 -> f < 8 -> np.offset3 8 8 c r f < 1152.
Proof. unfold np.offset3. lia. Qed.

Lemma length_fill idxs v d : length (np.fill idxs v d) = length d.
Proof.
  induction idxs as [|p idxs IH]; [done|].
  change (np.fill (p :: idxs) v d) with (<[p:=v]> (np.fill idxs v d)).
  now rewrite length_insert.
Qed.

Lemma fill_lookup idxs v d p x :
  d !! p = Some x ->
  np.fill idxs v d !! p = Some (if bool_decide (p ∈ idxs) then v else x).
Proof.
  intros Hp. induction idxs as [|q idxs IH].
  - cbn [np.fill foldr]. rewrite bool_decide_eq_false_2; [done | apply not_elem_of_nil].
  - change (np.fill (q :: idxs) v d) with (<[q:=v]> (np.fill idxs v d)).
    destruct (decide (q = p)) as [->|Hne].
    + rewrite list_lookup_insert_eq.
      * rewrite bool_decide_eq_true_2; [done | apply list_elem_of_here].
      * rewrite length_fill. eapply lookup_lt_Some; eauto.
    + rewrite list_lookup_insert_ne by done. rewrite IH.
      replace (bool_decide (p ∈ q :: idxs)) with (bool_decide (p ∈ idxs)); [done|].
      apply bool_decide_ext. rewrite elem_of_cons. intuition congruence.
Qed.

Lemma Forall_fill (P : spec_float -> Prop) idxs v d :
  P v -> Forall P d -> Forall P (np.fill idxs v d).
Proof.
  intros Hv Hd. induction idxs as [|q idxs IH]; [done|].
  change (np.fill (q :: idxs) v d) with (<[q:=v]> (np.fill idxs v d)).
  now apply Forall_insert.
Qed.

Lemma plane_offsets_elem c c' r' f' :
  r' < 8 -> f' < 8 ->
  np.offset3 8 8 c' r' f' ∈ flat_map (fun j => map (np.offset3 8 8 c j) (seq 0 8)) (seq 0 8)
  <-> c' = c.
Proof.
  intros Hr Hf. rewrite list_elem_of_In, in_flat_map. split.
  - intros (j & Hj & Hin). apply in_map_iff in Hin as (k & Hk & Hin).
    apply in_seq in Hj, Hin. symmetry in Hk.
    apply offset3_inj in Hk; [tauto | lia..].
  - intros ->. exists r'. split; [apply in_seq; lia|].
    apply in_map_iff. exists f'. split; [done | apply in_seq; lia].
Qed.

Lemma column_offsets_elem c f c' r' f' :
  r' < 8 -> f < 8 -> f' < 8 ->
  np.offset3 8 8 c' r' f' ∈ map (fun j => np.offset3 8 8 c j f) (seq 0 8)
  <-> c' = c /\ f' = f.
Proof.
  intros Hr Hf Hf'. rewrite list_elem_of_In, in_map_iff. split.
  - intros (j & Hj & Hin). apply in_seq in Hin. symmetry in Hj.
    apply offset3_inj in Hj; [tauto | lia..].
  - intros [-> ->]. exists r'. split; [done | apply in_seq; lia].
Qed.

Lemma cells_ext a g g' :
  cells a g ->
  (forall c r f, c < 18 -> r < 8 -> f < 8 -> g c r f = g' c r f) ->
  cells a g'.
Proof.
  intros (Hd & Hs & Hl & Hc) Hext. repeat split; try done.
  intros c r f Hc' Hr Hf. rewrite <- Hext by done. now apply Hc.
Qed.

Lemma cells_zeros :
  cells (np.zeros [NUM_CHANNELS; 8; 8] np.float32) (fun _ _ _ => false).
Proof.
  repeat split.
  intros c r f Hc Hr Hf. cbn [np.zeros np.data]. apply lookup_replicate_2.
  apply offset3_lt; done.
Qed.

Lemma cells_getitem3 a g c r f :
  cells a g -> c < 18 -> r < 8 -> f < 8 ->
  np.getitem3 a c r f = Ok (bit_value (g c r f)).
Proof.
  intros (Hd & Hs & Hl & Hcells) Hc Hr Hf. unfold np.getitem3. rewrite Hs.
  replace (c <? 18) with true by (symmetry; apply Nat.ltb_lt; done).
  replace (r <? 8) with true by (symmetry; apply Nat.ltb_lt; done).
  replace (f <? 8) with true by (symmetry; apply Nat.ltb_lt; done).
  cbn [andb]. now rewrite Hcells.
Qed.

Lemma cells_setitem3 a g c r f :
  cells a g -> c < 18 -> r < 8 -> f < 8 ->
  exists a', np.setitem3 a c r f np.f32_one = Ok a' /\
    cells a' (fun c' r' f' => (c' =? c) && (r' =? r) && (f' =? f) || g c' r' f').
Proof.
  intros (Hd & Hs & Hl & Hcells) Hc Hr Hf. unfold np.setitem3. rewrite Hs.
  replace (c <? 18) with true by (symmetry; apply Nat.ltb_lt; done).
  replace (r <? 8) with true by (symmetry; apply Nat.ltb_lt; done).
  replace (f <? 8) with true by (symmetry; apply Nat.ltb_lt; done).
  cbn [andb]. eexists. split; [reflexivity|].
  repeat split; cbn [np.dtype np.shape np.data]; try done.
  - now rewrite length_insert.
  - intros c' r' f' Hc' Hr' Hf'.
    destruct (decide (np.offset3 8 8 c r f = np.offset3 8 8 c' r' f')) as [Heq|Hne].
    + rewrite Heq, list_lookup_insert_eq by (rewrite Hl; apply offset3_lt; done).
      apply offset3_inj in Heq as (-> & -> & ->); try done.
      now rewrite !Nat.eqb_refl.
    + rewrite list_lookup_insert_ne by done. rewrite Hcells by done.
      destruct (Nat.eqb_spec c' c) as [->|]; [|done].
      destruct (Nat.eqb_spec r' r) as [->|]; [|done].
      destruct (Nat.eqb_spec f' f) as [->|]; done.
Qed.

Lemma cells_setitem_plane a g c :
  cells a g -> c < 18 ->
  exists a', np.setitem_plane a c np.f32_one = Ok a' /\
    cells a' (fun c' r' f' => (c' =? c) || g c' r' f').
Proof.
  intros (Hd & Hs & Hl & Hcells) Hc. unfold np.setitem_plane. rewrite Hs.
  replace (c <? 18) with true by (symmetry; apply Nat.ltb_lt; done).
  eexists. split; [reflexivity|].
  repeat split; cbn [np.dtype np.shape np.data]; try done.
  - now rewrite length_fill.
  - intros c' r' f' Hc' Hr' Hf'.
    erewrite fill_lookup by (apply Hcells; done). f_equal.
    destruct (Nat.eqb_spec c' c) as [->|Hne].
    + rewrite bool_decide_eq_true_2; [done | now apply plane_offsets_elem].
    + rewrite bool_decide_eq_false_2; [done | now rewrite plane_offsets_elem].
Qed.

Lemma cells_setitem_column a g c f :
  cells a g -> c < 18 -> f < 8 ->
  exists a', np.setitem_column a c f np.f32_one = Ok a' /\
    cells a' (fun c' r' f' => (c' =? c) && (f' =? f) || g c' r' f').
Proof.
  intros (Hd & Hs & Hl & Hcells) Hc Hf. unfold np.setitem_column. rewrite Hs.
  replace (c <? 18) with true by (symmetry; apply Nat.ltb_lt; done).
  replace (f <? 8) with true by (symmetry; apply Nat.ltb_lt; done).
  cbn [andb]. eexists. split; [reflexivity|].
  repeat split; cbn [np.dtype np.shape np.data]; try done.
  - now rewrite length_fill.
  - intros c' r' f' Hc' Hr' Hf'.
    erewrite fill_lookup by (apply Hcells; done). f_equal.
    destruct (Nat.eqb_spec c' c) as [->|Hne]; cbn [andb orb].
    + destruct (Nat.eqb_spec f' f) as [->|Hne]; cbn [orb].
      * rewrite bool_decide_eq_true_2; [done | now apply column_offsets_elem].
      * rewrite bool_decide_eq_false_2; [done|].
        rewrite column_offsets_elem by done. tauto.
    + rewrite bool_decide_eq_false_2; [done|].
      rewrite column_offsets_elem by done. tauto.
Qed.

Lemma for_each_app {A S} (body : S -> A -> Result S) l1 l2 s :
  for_each body (l1 ++ l2) s = (s' ← for_each body l1 s; for_each body l2 s').
Proof.
  revert s. induction l1 as [|x l1 IH]; intros s; simpl; [done|].
  destruct (body s x); simpl; [apply IH | done].
Qed.

Lemma cells_encode_square b a n :
  n < 64 -> cells a (placed b n) ->
  exists a', encode_square b a n = Ok a' /\ cells a' (placed b (S n)).
Proof.
  intros Hn Ha. unfold encode_square.
  destruct (piece_at b n) as [p|] eqn:Hp.
  - assert (Hr : square_rank n < 8).
    { rewrite square_rank_div. apply Nat.Div0.div_lt_upper_bound. lia. }
    destruct (cells_setitem3 a _ (piece_channel p) (square_rank n) (square_file n) Ha)
      as (a' & Hset & Ha'); [rewrite piece_channel_plane; pose proof (piece_plane_lt p); lia
                            | done | apply square_file_lt |].
    exists a'. split; [done|]. eapply cells_ext; [exact Ha'|].
    intros c r f Hc Hr' Hf. cbv beta. unfold placed.
    rewrite square_rank_div, square_file_mod, piece_channel_plane.
    destruct (decide (8 * r + f = n)) as [Heq|Hne].
    + subst n. rewrite Hp.
      replace ((8 * r + f) / 8) with r by (apply Nat.div_unique with f; lia).
      replace ((8 * r + f) mod 8) with f by (apply Nat.mod_unique with r; lia).
      rewrite !Nat.eqb_refl. cbn [andb].
      replace (8 * r + f <? S (8 * r + f)) with true by (symmetry; apply Nat.ltb_lt; lia).
      replace (8 * r + f <? 8 * r + f) with false by (symmetry; apply Nat.ltb_ge; lia).
      rewrite !andb_true_r. cbn [andb orb]. rewrite orb_false_r. apply Nat.eqb_sym.
    + assert (Hrf : (r =? n / 8) && (f =? n mod 8) = false).
      { apply andb_false_iff.
        destruct (Nat.eqb_spec r (n / 8)) as [->|]; [|now left].
        destruct (Nat.eqb_spec f (n mod 8)) as [->|]; [|now right].
        exfalso. apply Hne. pose proof (Nat.div_mod_eq n 8). lia. }
      rewrite <- andb_assoc, Hrf, andb_false_r. cbn [orb andb].
      replace (8 * r + f <? S n) with (8 * r + f <? n); [done|].
      destruct (Nat.ltb_spec (8 * r + f) n), (Nat.ltb_spec (8 * r + f) (S n)); try done; lia.
  - exists a. split; [done|]. eapply cells_ext; [exact Ha|].
    intros c r f Hc Hr Hf. unfold placed.
    destruct (decide (8 * r + f = n)) as [Heq|Hne].
    + subst n. rewrite Hp. now rewrite !andb_false_r.
    + replace (8 * r + f <? S n) with (8 * r + f <? n); [done|].
      destruct (Nat.ltb_spec (8 * r + f) n), (Nat.ltb_spec (8 * r + f) (S n)); try done; lia.
Qed.

Lemma cells_piece_loop b a n :
  n <= 64 -> cells a (placed b 0) ->
  exists a', for_each (encode_square b) (seq 0 n) a = Ok a' /\ cells a' (placed b n).
Proof.
  intros Hn Ha. induction n as [|n IH].
  - exists a. split; done.
  - destruct IH as (a1 & Hloop & Ha1); [lia|].
    destruct (cells_encode_square b a1 n) as (a2 & Hstep & Ha2); [lia | done |].
    exists a2. split; [|done].
    rewrite seq_S, for_each_app, Hloop. simpl. now rewrite Hstep.
Qed.


Ltac constant_plane b r f :=
  let Hp := fresh "Hp" in
  match goal with
  | |- context [match piece_at b (8 * r + f) with
                | Some p => piece_plane p =? ?K
                | None => false
                end] =>
      assert (Hp : match piece_at b (8 * r + f) with
                   | Some p => piece_plane p =? K
                   | None => false
                   end = false)
        by (destruct (piece_at b (8 * r + f)) as [p|];
            [apply Nat.eqb_neq; pose proof (piece_plane_lt p); lia | reflexivity]);
      rewrite Hp
  end;
  unfold WHITE, BLACK;
  cbn [Nat.ltb Nat.leb Nat.eqb andb orb Bool.eqb];
  destruct (ep_square b), (turn b),
    (has_kingside_castling_rights b true), (has_queenside_castling_rights b true),
    (has_kingside_castling_rights b false), (has_queenside_castling_rights b false);
  cbn [Nat.ltb Nat.leb Nat.eqb andb orb Bool.eqb];
  rewrite ?orb_false_r; reflexivity.

(** The encoder returns, and its result is the array of [plane_bit]. *)
Lemma encode_board_cells b :
  exists enc, encode_board b = Ok enc /\ cells enc (plane_bit b).
Proof.
  unfold encode_board, SQUARES. cbv zeta.
  destruct (cells_piece_loop b (np.zeros [NUM_CHANNELS; 8; 8] np.float32) 64)
    as (a1 & -> & H1); [lia | |].
  { eapply cells_ext; [apply cells_zeros|]. intros c r f _ _ _. unfold placed.
    replace (8 * r + f <? 0) with false by (symmetry; apply Nat.ltb_ge; lia). done. }
  cbn [mbind Result_bind].
  assert (Hplane : forall (cond : bool) ch a g, ch < 18 -> cells a g ->
    exists a', (if cond then np.setitem_plane a ch np.f32_one else Ok a) = Ok a' /\
      cells a' (fun c r f => cond && (c =? ch) || g c r f)).
  { intros [] ch a g Hch Ha.
    - apply cells_setitem_plane; done.
    - exists a. split; done. }
  destruct (Hplane (Bool.eqb (turn b) WHITE) SIDE_TO_MOVE_CHANNEL a1 _ ltac:(cbv; lia) H1)
    as (a2 & -> & H2); cbn [mbind Result_bind].
  destruct (Hplane (has_kingside_castling_rights b WHITE) CASTLING_WK_CHANNEL a2 _
              ltac:(cbv; lia) H2) as (a3 & -> & H3); cbn [mbind Result_bind].
  destruct (Hplane (has_queenside_castling_rights b WHITE) CASTLING_WQ_CHANNEL a3 _
              ltac:(cbv; lia) H3) as (a4 & -> & H4); cbn [mbind Result_bind].
  destruct (Hplane (has_kingside_castling_rights b BLACK) CASTLING_BK_CHANNEL a4 _
              ltac:(cbv; lia) H4) as (a5 & -> & H5); cbn [mbind Result_bind].
  destruct (Hplane (has_queenside_castling_rights b BLACK) CASTLING_BQ_CHANNEL a5 _
              ltac:(cbv; lia) H5) as (a6 & -> & H6); cbn [mbind Result_bind].
  assert (Hep : exists a7,
    match ep_square b with
    | Some sq => np.setitem_column a6 EN_PASSANT_CHANNEL (square_file sq) np.f32_one
    | None => Ok a6
    end = Ok a7 /\
    cells a7 (fun c r f =>
      match ep_square b with
      | Some sq => (c =? 17) && (f =? sq mod 8)
      | None => false
      end || (has_queenside_castling_rights b BLACK && (c =? 16)
         || (has_kingside_castling_rights b BLACK && (c =? 15)
         || (has_queenside_castling_rights b WHITE && (c =? 14)
         || (has_kingside_castling_rights b WHITE && (c =? 13)
         || (Bool.eqb (turn b) WHITE && (c =? 12) || placed b 64 c r f))))))).
  { destruct (ep_square b) as [sq|].
    - destruct (cells_setitem_column a6 _ EN_PASSANT_CHANNEL (square_file sq) H6)
        as (a7 & Hset & H7); [cbv; lia | apply square_file_lt |].
      exists a7. split; [done|]. rewrite square_file_mod in H7. exact H7.
    - exists a6. split; done. }
  destruct Hep as (a7 & -> & H7). cbn [mbind Result_bind].
  exists a7. split; [done|]. eapply cells_ext; [exact H7|].
  intros c r f Hc Hr Hf. cbv beta. unfold plane_bit, placed.
  replace (8 * r + f <? 64) with true by (symmetry; apply Nat.ltb_lt; lia).
  cbn [andb].
  assert (c < 12 \/ c = 12 \/ c = 13 \/ c = 14 \/ c = 15 \/ c = 16 \/ c = 17) as Hcase by lia.
  destruct Hcase as [Hc12 | [-> | [-> | [-> | [-> | [-> | ->]]]]]].
  - replace (c <? 12) with true by (symmetry; apply Nat.ltb_lt; done).
    replace (c =? 17) with false by (symmetry; apply Nat.eqb_neq; lia).
    replace (c =? 16) with false by (symmetry; apply Nat.eqb_neq; lia).
    replace (c =? 15) with false by (symmetry; apply Nat.eqb_neq; lia).
    replace (c =? 14) with false by (symmetry; apply Nat.eqb_neq; lia).
    replace (c =? 13) with false by (symmetry; apply Nat.eqb_neq; lia).
    replace (c =? 12) with false by (symmetry; apply Nat.eqb_neq; lia).
    rewrite !andb_false_r. cbn [orb andb]. now destruct (ep_square b).
  - constant_plane b r f.
  - constant_plane b r f.
  - constant_plane b r f.
  - constant_plane b r f.
  - constant_plane b r f.
  - constant_plane b r f.
Qed.

End EncoderFacts.

Section EncoderProperties.
Import chess board_encoder.

Lemma cells_values a g :
  cells a g ->
  Forall (fun v => np.is_binary32 v = true /\ (v = np.f32_zero \/ v = np.f32_one))
    (np.data a).
Proof.
  intros (_ & _ & Hl & Hcells). apply Forall_lookup. intros i v Hi.
  assert (Hlt : i < 1152) by (rewrite <- Hl; eapply lookup_lt_Some; eauto).
  pose proof (Nat.div_mod_eq i 8) as H1.
  pose proof (Nat.div_mod_eq (i / 8) 8) as H2.
  pose proof (Nat.mod_upper_bound i 8 ltac:(lia)) as H3.
  pose proof (Nat.mod_upper_bound (i / 8) 8 ltac:(lia)) as H4.
  assert (Hi' : i = np.offset3 8 8 (i / 8 / 8) ((i / 8) mod 8) (i mod 8))
    by (unfold np.offset3; lia).
  rewrite Hi' in Hi. rewrite Hcells in Hi by lia.
  injection Hi as <-. destruct (g _ _ _); cbn [bit_value].
  - split; [reflexivity | now right].
  - split; [reflexivity | now left].
Qed.

(** C9. For every position, [encode_board] returns an array of shape
    (18, 8, 8) and dtype float32, holding 18 * 8 * 8 binary32 numbers,
    each of them exactly 0.0 or exactly 1.0. *)
Theorem encode_board_shape_dtype_values (board : Board) :
  exists enc, encode_board board = Ok enc /\
    np.shape enc = [18; 8; 8] /\
    np.dtype enc = np.float32 /\
    length (np.data enc) = 18 * 8 * 8 /\
    Forall (fun v => np.is_binary32 v = true /\ (v = np.f32_zero \/ v = np.f32_one))
      (np.data enc).
Proof.
  destruct (encode_board_cells board) as (enc & Henc & Hcells).
  exists enc. pose proof (cells_values _ _ Hcells) as Hv.
  destruct Hcells as (Hd & Hs & Hl & _). repeat split; done.
Qed.

(** C6. The loop of [encode_board] runs over the 64 squares, each
    once.  In the result, for the square at rank [r] and file [f]: if a
    piece stands there, the cell [(r, f)] is 1.0 in the plane given by
    the owner's band (0 for White, 6 for Black) plus the ordinal of the
    piece kind (pawn .. king = 0 .. 5) and 0.0 in the eleven other piece
    planes; if the square is empty, the cell is 0.0 in all of planes
    0-11. *)
Theorem encode_board_piece_planes (board : Board) :
  NoDup SQUARES /\ (forall sq, In sq SQUARES <-> sq < 64) /\
  exists enc, encode_board board = Ok enc /\
    forall r f, r < 8 -> f < 8 ->
      let square := 8 * r + f in
      square_rank square = r /\ square_file square = f /\
      match piece_at board square with
      | Some piece =>
          let plane := owner_band (color piece) + kind_ordinal (piece_type piece) in
          np.getitem3 enc plane r f = Ok np.f32_one /\
          forall c, c < 12 -> c <> plane -> np.getitem3 enc c r f = Ok np.f32_zero
      | None =>
          forall c, c < 12 -> np.getitem3 enc c r f = Ok np.f32_zero
      end.
Proof.
  split; [apply NoDup_ListNoDup, List.seq_NoDup|].
  split; [intros sq; unfold SQUARES; rewrite in_seq; lia|].
  destruct (encode_board_cells board) as (enc & Henc & Hcells).
  exists enc. split; [done|]. intros r f Hr Hf square.
  split; [|split].
  - rewrite square_rank_div. symmetry. apply Nat.div_unique with f; subst square; lia.
  - rewrite square_file_mod. symmetry. apply Nat.mod_unique with r; subst square; lia.
  - destruct (piece_at board square) as [piece|] eqn:Hp.
    + pose proof (piece_plane_lt piece) as Hlt. unfold piece_plane in Hlt.
      cbv zeta. split.
      * rewrite (cells_getitem3 _ _ _ _ _ Hcells) by lia.
        unfold plane_bit. fold square. rewrite Hp.
        replace (_ <? 12) with true by (symmetry; apply Nat.ltb_lt; lia).
        unfold piece_plane. now rewrite Nat.eqb_refl.
      * intros c Hc Hne. rewrite (cells_getitem3 _ _ _ _ _ Hcells) by lia.
        unfold plane_bit. fold square. rewrite Hp.
        replace (c <? 12) with true by (symmetry; apply Nat.ltb_lt; lia).
        unfold piece_plane.
        replace (_ =? c) with false by (symmetry; apply Nat.eqb_neq; congruence).
        done.
    + intros c Hc. rewrite (cells_getitem3 _ _ _ _ _ Hcells) by lia.
      unfold plane_bit. fold square. rewrite Hp.
      replace (c <? 12) with true by (symmetry; apply Nat.ltb_lt; lia). done.
Qed.

(** C3. Plane 17 of the encoding is the column of the en-passant
    target's file when [ep_square] is set, and all zero when it is not;
    two positions with the same [ep_square] have the same plane 17,
    whatever else differs between them. *)
Theorem encode_board_en_passant_plane (board : Board) :
  exists enc, encode_board board = Ok enc /\
    match ep_square board with
    | Some sq =>
        forall r f, r < 8 -> f < 8 ->
          np.getitem3 enc EN_PASSANT_CHANNEL r f =
            Ok (if f =? square_file sq then np.f32_one else np.f32_zero)
    | None =>
        forall r f, r < 8 -> f < 8 ->
          np.getitem3 enc EN_PASSANT_CHANNEL r f = Ok np.f32_zero
    end /\
    forall board', ep_square board' = ep_square board ->
      exists enc', encode_board board' = Ok enc' /\
        forall r f, r < 8 -> f < 8 ->
          np.getitem3 enc' EN_PASSANT_CHANNEL r f = np.getitem3 enc EN_PASSANT_CHANNEL r f.
Proof.
  destruct (encode_board_cells board) as (enc & Henc & Hcells).
  exists enc. split; [done|]. split.
  - destruct (ep_square board) as [sq|] eqn:Hep; intros r f Hr Hf;
      rewrite (cells_getitem3 _ _ _ _ _ Hcells) by (cbv; lia || done);
      unfold plane_bit; rewrite Hep; cbn [EN_PASSANT_CHANNEL Nat.ltb Nat.leb Nat.eqb];
      [now rewrite square_file_mod | done].
  - intros board' Hep.
    destruct (encode_board_cells board') as (enc' & Henc' & Hcells').
    exists enc'. split; [done|]. intros r f Hr Hf.
    rewrite (cells_getitem3 _ _ _ _ _ Hcells) by (cbv; lia || done).
    rewrite (cells_getitem3 _ _ _ _ _ Hcells') by (cbv; lia || done).
    unfold plane_bit. rewrite Hep. reflexivity.
Qed.

(** C7. If [P'] is [P] without one castling permission that [P] holds,
    then the plane of that permission is all 1.0 in the encoding of [P]
    and all 0.0 in the encoding of [P'], and every other plane (the
    three other castling planes among them) is the same in both. *)
Theorem encode_board_castling_frame (P P' : Board) (k : CastlingRight) :
  lacks_only P P' k ->
  exists enc enc', encode_board P = Ok enc /\ encode_board P' = Ok enc' /\
    (forall r f, r < 8 -> f < 8 ->
       np.getitem3 enc (castling_plane k) r f = Ok np.f32_one /\
       np.getitem3 enc' (castling_plane k) r f = Ok np.f32_zero) /\
    (forall c r f, c < 18 -> r < 8 -> f < 8 -> c <> castling_plane k ->
       np.getitem3 enc' c r f = np.getitem3 enc c r f).
Proof.
  intros (Hpieces & Hturn & Hep & Hk & Hk' & Hothers).
  destruct (encode_board_cells P) as (enc & Henc & Hcells).
  destruct (encode_board_cells P') as (enc' & Henc' & Hcells').
  exists enc, enc'. split; [done|]. split; [done|]. split.
  - intros r f Hr Hf.
    rewrite (cells_getitem3 _ _ _ _ _ Hcells) by (destruct k; cbn; lia).
    rewrite (cells_getitem3 _ _ _ _ _ Hcells') by (destruct k; cbn; lia).
    destruct k; cbn in Hk, Hk' |- *; rewrite Hk, Hk'; done.
  - intros c r f Hc Hr Hf Hne.
    rewrite (cells_getitem3 _ _ _ _ _ Hcells) by done.
    rewrite (cells_getitem3 _ _ _ _ _ Hcells') by done.
    f_equal. f_equal. unfold plane_bit. rewrite Hpieces, Hturn, Hep.
    pose proof (Hothers WK) as HWK. pose proof (Hothers WQ) as HWQ.
    pose proof (Hothers BK) as HBK. pose proof (Hothers BQ) as HBQ.
    cbn [has_right] in HWK, HWQ, HBK, HBQ.
    destruct (c <? 12); [done|].
    destruct (c =? 12); [done|].
    destruct (Nat.eqb_spec c 13) as [->|]; [apply HWK; destruct k; cbn in *; congruence|].
    destruct (Nat.eqb_spec c 14) as [->|]; [apply HWQ; destruct k; cbn in *; congruence|].
    destruct (Nat.eqb_spec c 15) as [->|]; [apply HBK; destruct k; cbn in *; congruence|].
    destruct (Nat.eqb_spec c 16) as [->|]; [apply HBQ; destruct k; cbn in *; congruence|].
    done.
Qed.

Lemma starting_board_lacks_WK : lacks_only starting_board starting_board_no_WK WK.
Proof.
  repeat split. intros k' Hk'. destruct k'; cbn; congruence.
Qed.

Lemma encode_board_castling_frame_witness :
  exists enc enc', encode_board starting_board = Ok enc /\
    encode_board starting_board_no_WK = Ok enc' /\
    (forall r f, r < 8 -> f < 8 ->
       np.getitem3 enc (castling_plane WK) r f = Ok np.f32_one /\
       np.getitem3 enc' (castling_plane WK) r f = Ok np.f32_zero) /\
    (forall c r f, c < 18 -> r < 8 -> f < 8 -> c <> castling_plane WK ->
       np.getitem3 enc' c r f = np.getitem3 enc c r f).
Proof.
  apply (encode_board_castling_frame starting_board starting_board_no_WK WK).
  apply starting_board_lacks_WK.
Defined.

End EncoderProperties.

(** * float32 facts *)

Section Float32.
Import torch.








(** Arithmetic on zeros. *)




Lemma add_is_zero_plus a : f32.is_zero a = true -> f32.add a f32.zero = f32.zero.
Proof. destruct a as [[]| | |]; try discriminate; reflexivity. Qed.




Lemma relu_f32_finite v : f32.is_finite v = true -> f32.is_finite (relu_f32 v) = true.
Proof. intros Hv. unfold relu_f32. now destruct (f32.ltb v f32.zero). Qed.








End Float32.

(** * Kernels that add one product after the other *)

Section KernelFacts.
Import torch.





Lemma clamp_unit_in_range y :
  clamp_unit y = S754_nan \/ f32.between (f32.opp f32.one) f32.one (clamp_unit y) = true.
Proof.
  unfold clamp_unit.
  destruct (f32.between (f32.opp f32.one) f32.one y) eqn:Hy; [now right|].
  destruct (f32.ltb y (f32.opp f32.one)); [now right|].
  destruct (f32.ltb f32.one y); [now right | now left].
Qed.

Lemma tanh_rational_in_range x :
  tanh_rational x = S754_nan \/
  f32.between (f32.opp f32.one) f32.one (tanh_rational x) = true.
Proof.
  unfold tanh_rational. destruct (f32.is_nan x); [now left|].
  destruct (f32.ltb _ x); [now right|].
  destruct (f32.ltb x _); [now right|]. apply clamp_unit_in_range.
Qed.

Lemma sequential_tanh_in_range : tanh_in_range sequential.
Proof. intros x. apply tanh_rational_in_range. Qed.


End KernelFacts.

(** * Properties of the network *)

Section NetworkStructure.
Import torch model.

Lemma forward_stages (K : Kernels) self training x :
  forward K self training x =
    (x ← input_projection K self training x;
     x ← tower K (residual_blocks self) training x;
     policy_logits ← policy_head K self training x;
     value ← value_head K self training x;
     Ok (policy_logits, value)).
Proof.
  unfold forward, input_projection, tower, policy_head, value_head.
  repeat match goal with
  | |- context [mbind _ ?m] =>
      match m with
      | mbind _ _ => fail 1
      | _ => destruct m; cbn [mbind Result_bind]; try reflexivity
      end
  end.
Qed.

Lemma py_sum_app l1 l2 : py_sum (l1 ++ l2) = (py_sum l1 + py_sum l2)%Z.
Proof. unfold py_sum. induction l1 as [|x l1 IH]; cbn [app foldr]; lia. Qed.

Lemma block_param_count F g b g' :
  ResidualBlock_init F g = (b, g') ->
  py_sum (map nn_Parameter_numel (List.filter requires_grad (ResidualBlock_parameters b)))
  = (18 * Z.of_nat F * Z.of_nat F + 4 * Z.of_nat F)%Z.
Proof.
  unfold ResidualBlock_init, Conv2d_init, random_parameter, draw. cbv zeta.
  intros [= <- _]. unfold nn_Parameter_numel, BatchNorm2d_init, full, py_sum.
  cbn -[Nat.mul Nat.add Z.mul Z.add Z.of_nat]. lia.
Qed.

Lemma tower_param_count idxs F g blocks g' :
  residual_tower idxs F g = (blocks, g') ->
  py_sum (map nn_Parameter_numel
    (List.filter requires_grad (flat_map ResidualBlock_parameters blocks)))
  = (Z.of_nat (length idxs) * (18 * Z.of_nat F * Z.of_nat F + 4 * Z.of_nat F))%Z.
Proof.
  revert g blocks g'. induction idxs as [|i idxs IH]; intros g blocks g'.
  - cbn [residual_tower]. intros [= <- _]. cbn. lia.
  - cbn [residual_tower].
    destruct (ResidualBlock_init F g) as [b g1] eqn:Hb.
    destruct (residual_tower idxs F g1) as [bs g2] eqn:Hbs.
    intros [= <- _]. cbn [flat_map].
    rewrite List.filter_app, map_app, py_sum_app.
    rewrite (block_param_count _ _ _ _ Hb), (IH _ _ _ Hbs). cbn [length]. lia.
Qed.

Lemma length_range n : length (range n) = Z.to_nat n.
Proof. unfold range. now rewrite length_map, length_seq. Qed.

Lemma count_parameters_init N F g :
  count_parameters (ChessNet_init N F g)
  = (167 * Z.of_nat F + Z.max 0 N * (18 * Z.of_nat F * Z.of_nat F + 4 * Z.of_nat F)
     + 545287)%Z.
Proof.
  unfold count_parameters, ChessNet_init.
  unfold Conv2d_init at 1. unfold random_parameter at 1. unfold draw at 1.
  cbv zeta.
  destruct (residual_tower _ _ _) as [blocks g1] eqn:Hblocks.
  unfold Conv2d_init, Linear_init, random_parameter, draw. cbv zeta.
  unfold parameters. cbn [initial_conv initial_bn residual_blocks policy_conv policy_bn
    policy_fc value_conv value_bn value_fc1 value_fc2].
  rewrite List.filter_app, map_app, py_sum_app.
  rewrite (List.filter_app _ (flat_map _ _)), map_app, py_sum_app.
  rewrite (tower_param_count _ _ _ _ _ Hblocks), length_range.
  unfold Linear_parameters, nn_Parameter_numel, BatchNorm2d_init, full, py_sum.
  cbn -[Nat.mul Nat.add Z.mul Z.add Z.of_nat Z.to_nat Z.max].
  unfold BOARD_SIZE, POLICY_OUTPUT_SIZE, NUM_CHANNELS, board_encoder.NUM_CHANNELS. lia.
Qed.

Lemma range_nonpositive n : (n <= 0)%Z -> range n = [].
Proof. intros Hn. unfold range. now replace (Z.to_nat n) with 0 by lia. Qed.

Example count_parameters_default g :
  count_parameters (ChessNet_init DEFAULT_NUM_BLOCKS DEFAULT_NUM_FILTERS g) = 2339207%Z.
Proof. rewrite count_parameters_init. reflexivity. Qed.

(** C8. With at least one filter and a non-negative number of blocks,
    the number of trainable parameters of a freshly built network grows
    strictly with the number of blocks (filters fixed) and strictly
    with the number of filters (blocks fixed). *)
Theorem count_parameters_strictly_increasing (N N' : Z) (F F' : nat) (g g' : Generator) :
  (0 <= N)%Z -> 1 <= F ->
  ((N < N')%Z ->
     (count_parameters (ChessNet_init N F g) < count_parameters (ChessNet_init N' F g'))%Z) /\
  (F < F' ->
     (count_parameters (ChessNet_init N F g) < count_parameters (ChessNet_init N F' g'))%Z).
Proof.
  intros HN HF. rewrite !count_parameters_init. split; intros Hlt.
  - rewrite !Z.max_r by lia. nia.
  - rewrite !Z.max_r by lia. nia.
Qed.

Lemma count_parameters_strictly_increasing_witness :
  ((3 < 12)%Z ->
     (count_parameters (ChessNet_init 3 64 zero_generator)
      < count_parameters (ChessNet_init 12 64 counting_generator))%Z) /\
  (64 < 256 ->
     (count_parameters (ChessNet_init 3 64 zero_generator)
      < count_parameters (ChessNet_init 3 256 counting_generator))%Z).
Proof.
  apply (count_parameters_strictly_increasing 3 12 64 256 zero_generator counting_generator);
    lia.
Defined.

Lemma ChessNet_init_nonpositive (K : Kernels) n F g :
  (n <= 0)%Z ->
  residual_blocks (ChessNet_init n F g) = [] /\
  forall training x,
    forward K (ChessNet_init n F g) training x = forward K (ChessNet_init 0 F g) training x.
Proof.
  intros Hn. unfold ChessNet_init. rewrite (range_nonpositive n Hn).
  change (range 0) with (@nil Z). cbn [residual_tower].
  unfold Conv2d_init, Linear_init, random_parameter, draw. cbv zeta.
  split; reflexivity.
Qed.

(** C10. A negative [num_blocks] is accepted as it is: the network is
    built, stores the negative number, has no residual block, and its
    [forward] is that of the network built with zero blocks: the input
    projection followed by the two heads. *)
Theorem negative_num_blocks_empty_tower (K : Kernels) (n : Z) (F : nat) (g : Generator) :
  (n < 0)%Z ->
  num_blocks (ChessNet_init n F g) = n /\
  residual_blocks (ChessNet_init n F g) = [] /\
  forall training x,
    forward K (ChessNet_init n F g) training x = forward K (ChessNet_init 0 F g) training x /\
    forward K (ChessNet_init n F g) training x =
      (x ← input_projection K (ChessNet_init n F g) training x;
       policy_logits ← policy_head K (ChessNet_init n F g) training x;
       value ← value_head K (ChessNet_init n F g) training x;
       Ok (policy_logits, value)).
Proof.
  intros Hn. destruct (ChessNet_init_nonpositive K n F g) as [Hblocks Hfwd]; [lia|].
  split; [|split; [exact Hblocks|]].
  - unfold ChessNet_init, Conv2d_init, Linear_init, random_parameter, draw. cbv zeta.
    now destruct (residual_tower _ _ _).
  - intros training x. split; [apply Hfwd|].
    rewrite forward_stages, Hblocks. unfold tower. cbn [for_each].
    now destruct (input_projection K _ _ _).
Qed.

Lemma negative_num_blocks_empty_tower_witness :
  num_blocks (ChessNet_init (-3) 4 zero_generator) = (-3)%Z /\
  residual_blocks (ChessNet_init (-3) 4 zero_generator) = [] /\
  forall training x,
    forward sequential (ChessNet_init (-3) 4 zero_generator) training x
      = forward sequential (ChessNet_init 0 4 zero_generator) training x /\
    forward sequential (ChessNet_init (-3) 4 zero_generator) training x =
      (x ← input_projection sequential (ChessNet_init (-3) 4 zero_generator) training x;
       policy_logits ← policy_head sequential (ChessNet_init (-3) 4 zero_generator) training x;
       value ← value_head sequential (ChessNet_init (-3) 4 zero_generator) training x;
       Ok (policy_logits, value)).
Proof.
  apply (negative_num_blocks_empty_tower sequential (-3) 4 zero_generator). lia.
Defined.

End NetworkStructure.

Section Shapes.
Import torch model.

Lemma bind_Ok {A B} (m : Result A) (f : A -> Result B) y :
  (x ← m; f x) = Ok y -> exists a, m = Ok a /\ f a = Ok y.
Proof. destruct m as [a|e]; cbn; [eauto | discriminate]. Qed.

Lemma Conv2d_forward_ok (K : Kernels) m C Co Kn pad x B H W :
  Conv2d_wf m C Co Kn pad -> 1 <= Co -> shape x = [B; C; H; W] ->
  Kn <= H + 2 * pad -> Kn <= W + 2 * pad ->
  exists y, Conv2d_forward K m x = Ok y /\
    shape y = [B; Co; H + 2 * pad + 1 - Kn; W + 2 * pad + 1 - Kn].
Proof.
  intros [[Hw _] Hp] HCo Hx HH HW. unfold Conv2d_forward. rewrite Hw, Hx, Hp.
  rewrite Nat.eqb_refl.
  replace (1 <=? Co) with true by (symmetry; apply Nat.leb_le; done).
  replace (Kn <=? H + 2 * pad) with true by (symmetry; apply Nat.leb_le; done).
  replace (Kn <=? W + 2 * pad) with true by (symmetry; apply Nat.leb_le; done).
  cbn [andb]. eexists. split; reflexivity.
Qed.

Lemma Conv2d_forward_inv (K : Kernels) m C Co Kn pad x y :
  Conv2d_wf m C Co Kn pad -> Conv2d_forward K m x = Ok y ->
  (exists B H W, shape x = [B; C; H; W] /\ Kn <= H + 2 * pad /\ Kn <= W + 2 * pad /\
     shape y = [B; Co; H + 2 * pad + 1 - Kn; W + 2 * pad + 1 - Kn])
  \/ length (shape y) = 3.
Proof.
  intros [[Hw _] Hp]. unfold Conv2d_forward. rewrite Hw, Hp.
  destruct (shape x) as [|d0 [|d1 [|d2 [|d3 [|d4 rest]]]]] eqn:Hx; try discriminate.
  - destruct (_ && _); [|discriminate]. intros [= <-]. now right.
  - destruct (andb _ _) eqn:Hc; [|discriminate]. intros [= <-]. left.
    apply andb_true_iff in Hc as [Hc H3]. apply andb_true_iff in Hc as [Hc H2].
    apply andb_true_iff in Hc as [_ H1].
    apply Nat.eqb_eq in H1 as ->. apply Nat.leb_le in H2, H3.
    exists d0, d2, d3. repeat split; done.
Qed.

Lemma BatchNorm2d_forward_ok (K : Kernels) m C training x B H W :
  BatchNorm2d_wf m C -> shape x = [B; C; H; W] ->
  (training = true -> B * (H * W) <> 1) ->
  exists y, BatchNorm2d_forward K m training x = Ok y /\ shape y = [B; C; H; W].
Proof.
  intros (Hf & _) Hx Ht. unfold BatchNorm2d_forward. rewrite Hx, Hf, Nat.eqb_refl.
  replace (training && (B * (H * W) =? 1)) with false.
  2:{ symmetry. destruct training; [|done]. apply Nat.eqb_neq. now apply Ht. }
  cbn [negb]. eexists. split; reflexivity.
Qed.

Lemma BatchNorm2d_forward_inv (K : Kernels) m training x y :
  BatchNorm2d_forward K m training x = Ok y ->
  exists B H W, shape x = [B; num_features m; H; W] /\ shape y = shape x /\
    (training = true -> B * (H * W) <> 1).
Proof.
  unfold BatchNorm2d_forward.
  destruct (shape x) as [|B [|C [|H [|W [|d4 rest]]]]] eqn:Hx; try discriminate.
  destruct (training && _) eqn:Ht; [discriminate|].
  destruct (Nat.eqb_spec C (num_features m)) as [->|]; [|discriminate].
  cbn [negb]. intros [= <-]. exists B, H, W. repeat split.
  intros ->. cbn [andb] in Ht. now apply Nat.eqb_neq.
Qed.

Lemma add_ok a b : shape a = shape b ->
  add a b = Ok (mkTensor (shape a) (zip_with f32.add (data a) (data b))).
Proof. intros Hs. unfold add. now rewrite decide_True. Qed.

Lemma numel4 B C H W : numel [B; C; H; W] = B * (C * (H * W)).
Proof. unfold numel. cbn [foldr]. lia. Qed.

Lemma view_rows_4d x B C H W :
  shape x = [B; C; H; W] -> B <> 0 ->
  view_rows x B = Ok (mkTensor [B; C * (H * W)] (data x)).
Proof.
  intros Hx HB. unfold view_rows. rewrite Hx, numel4.
  replace (B =? 0) with false by (symmetry; now apply Nat.eqb_neq).
  rewrite Nat.mul_comm, Nat.Div0.mod_mul, Nat.div_mul by done. reflexivity.
Qed.

Lemma Linear_forward_2d (K : Kernels) m Kn Co x B Kx :
  Linear_wf m Kn Co -> shape x = [B; Kx] ->
  Linear_forward K m x =
    if Kx =? Kn then
      Ok (mkTensor [B; Co]
            (concat (imap (linear_row K B (data (p_data (lin_weight m)))
                             (data (p_data (lin_bias m))) Kn Co)
                       (chunks Kx B (data x)))))
    else Raise RuntimeError.
Proof. intros [[Hw _] _] Hx. unfold Linear_forward. now rewrite Hw, Hx. Qed.

Lemma ResidualBlock_forward_ok (K : Kernels) b F training x B H W :
  1 <= F -> ResidualBlock_wf F b -> shape x = [B; F; H; W] -> 1 <= H -> 1 <= W ->
  (training = true -> B * (H * W) <> 1) ->
  exists y, ResidualBlock_forward K b training x = Ok y /\ shape y = [B; F; H; W].
Proof.
  intros HF (Hc1 & Hb1 & Hc2 & Hb2) Hx HH HW Ht. unfold ResidualBlock_forward.
  destruct (Conv2d_forward_ok K _ _ _ _ _ x B H W Hc1 HF Hx) as (y1 & -> & Hy1); [lia..|].
  replace (H + 2 * 1 + 1 - 3) with H in Hy1 by lia.
  replace (W + 2 * 1 + 1 - 3) with W in Hy1 by lia.
  cbn [mbind Result_bind].
  destruct (BatchNorm2d_forward_ok K _ _ training y1 B H W Hb1 Hy1 Ht) as (y2 & -> & Hy2).
  cbn [mbind Result_bind].
  destruct (Conv2d_forward_ok K _ _ _ _ _ (relu y2) B H W Hc2 HF Hy2) as (y3 & -> & Hy3); [lia..|].
  replace (H + 2 * 1 + 1 - 3) with H in Hy3 by lia.
  replace (W + 2 * 1 + 1 - 3) with W in Hy3 by lia.
  cbn [mbind Result_bind].
  destruct (BatchNorm2d_forward_ok K _ _ training y3 B H W Hb2 Hy3 Ht) as (y4 & -> & Hy4).
  cbn [mbind Result_bind].
  rewrite add_ok by congruence. cbn [mbind Result_bind].
  eexists. split; [reflexivity|]. cbn [relu shape]. done.
Qed.

Lemma tower_ok (K : Kernels) blocks F training x B H W :
  1 <= F -> Forall (ResidualBlock_wf F) blocks -> shape x = [B; F; H; W] ->
  1 <= H -> 1 <= W -> (training = true -> B * (H * W) <> 1) ->
  exists y, tower K blocks training x = Ok y /\ shape y = [B; F; H; W].
Proof.
  intros HF Hwf. revert x. induction Hwf as [|b blocks Hb _ IH]; intros x Hx HH HW Ht.
  - exists x. split; done.
  - unfold tower. cbn [for_each].
    destruct (ResidualBlock_forward_ok K b F training x B H W HF Hb Hx HH HW Ht)
      as (y & -> & Hy).
    cbn [mbind Result_bind]. now apply IH.
Qed.

Lemma input_projection_ok (K : Kernels) m F training x B H W :
  ChessNet_wf F m -> shape x = [B; 18; H; W] -> 1 <= H -> 1 <= W ->
  (training = true -> B * (H * W) <> 1) ->
  exists y, input_projection K m training x = Ok y /\ shape y = [B; F; H; W].
Proof.
  intros (HF & Hc & Hb & _) Hx HH HW Ht. unfold input_projection.
  destruct (Conv2d_forward_ok K _ _ _ _ _ x B H W Hc HF Hx) as (y1 & -> & Hy1); [lia..|].
  replace (H + 2 * 1 + 1 - 3) with H in Hy1 by lia.
  replace (W + 2 * 1 + 1 - 3) with W in Hy1 by lia.
  cbn [mbind Result_bind].
  destruct (BatchNorm2d_forward_ok K _ _ training y1 B H W Hb Hy1 Ht) as (y2 & -> & Hy2).
  cbn [mbind Result_bind]. eexists. split; [reflexivity|]. done.
Qed.

Lemma input_projection_inv (K : Kernels) m F training x y :
  ChessNet_wf F m -> input_projection K m training x = Ok y ->
  exists B H W, shape x = [B; 18; H; W] /\ 1 <= H /\ 1 <= W /\
    (training = true -> B * (H * W) <> 1) /\ shape y = [B; F; H; W].
Proof.
  intros (_ & Hc & Hb & _) Hy. unfold input_projection in Hy.
  apply bind_Ok in Hy as (y1 & Hy1 & Hy). apply bind_Ok in Hy as (y2 & Hy2 & Hy).
  injection Hy as <-.
  apply BatchNorm2d_forward_inv in Hy2 as (B & H & W & Hs1 & Hs2 & Ht).
  destruct (Conv2d_forward_inv K _ _ _ _ _ _ _ Hc Hy1)
    as [(B' & H' & W' & Hx & HH & HW & Hs)|Hlen]; [|rewrite Hs1 in Hlen; discriminate].
  rewrite Hs1 in Hs. injection Hs as -> HF -> ->.
  exists B', H', W'. split; [done|]. split; [lia|]. split; [lia|]. split.
  - intros Htr. specialize (Ht Htr).
    replace (H' + 2 + 1 - 3) with H' in Ht by lia.
    replace (W' + 2 + 1 - 3) with W' in Ht by lia. done.
  - cbn [relu shape]. rewrite Hs2, Hs1, HF.
    replace (H' + 2 + 1 - 3) with H' by lia.
    replace (W' + 2 + 1 - 3) with W' by lia. done.
Qed.

(** The two heads on a trunk activation of shape [(B, F, H, W)]: they
    return exactly when the batch is not empty and [H * W = 64]. *)
Lemma policy_head_ok (K : Kernels) m F training x B H W :
  ChessNet_wf F m -> shape x = [B; F; H; W] -> 1 <= B -> H * W = 64 ->
  exists p, policy_head K m training x = Ok p /\ shape p = [B; 4096].
Proof.
  intros (_ & _ & _ & _ & Hc & Hb & Hl & _) Hx HB HHW. unfold policy_head.
  destruct (Conv2d_forward_ok K _ _ _ _ _ x B H W Hc ltac:(lia) Hx) as (y1 & -> & Hy1);
    [lia..|].
  replace (H + 2 * 0 + 1 - 1) with H in Hy1 by lia.
  replace (W + 2 * 0 + 1 - 1) with W in Hy1 by lia.
  cbn [mbind Result_bind].
  destruct (BatchNorm2d_forward_ok K _ _ training y1 B H W Hb Hy1) as (y2 & -> & Hy2); [lia|].
  cbn [mbind Result_bind]. unfold size0. cbn [relu shape]. rewrite Hy2.
  cbn [mbind Result_bind].
  rewrite (view_rows_4d _ B 2 H W) by (done || lia). cbn [mbind Result_bind].
  erewrite Linear_forward_2d by (done || reflexivity).
  replace (2 * (H * W) =? 128) with true by (symmetry; apply Nat.eqb_eq; lia).
  eexists. split; reflexivity.
Qed.

Lemma policy_head_inv (K : Kernels) m F training x B H W p :
  ChessNet_wf F m -> shape x = [B; F; H; W] -> 1 <= H -> 1 <= W ->
  policy_head K m training x = Ok p -> 1 <= B /\ H * W = 64.
Proof.
  intros (_ & _ & _ & _ & Hc & Hb & Hl & _) Hx HH HW Hp. unfold policy_head in Hp.
  destruct (Conv2d_forward_ok K _ _ _ _ _ x B H W Hc ltac:(lia) Hx) as (y1 & Hy1' & Hy1);
    [lia..|].
  rewrite Hy1' in Hp.
  replace (H + 2 * 0 + 1 - 1) with H in Hy1 by lia.
  replace (W + 2 * 0 + 1 - 1) with W in Hy1 by lia.
  cbn [mbind Result_bind] in Hp.
  apply bind_Ok in Hp as (y2 & Hy2 & Hp).
  apply BatchNorm2d_forward_inv in Hy2 as (B' & H' & W' & _ & Hs2 & _).
  rewrite Hy1 in Hs2.
  unfold size0 in Hp. cbn [relu shape] in Hp. rewrite Hs2 in Hp.
  cbn [mbind Result_bind] in Hp.
  destruct (Nat.eq_dec B 0) as [->|HB].
  { unfold view_rows in Hp. cbn in Hp. discriminate. }
  rewrite (view_rows_4d _ B 2 H W) in Hp by done. cbn [mbind Result_bind] in Hp.
  erewrite Linear_forward_2d in Hp by (done || reflexivity).
  destruct (Nat.eqb_spec (2 * (H * W)) 128); [lia | discriminate].
Qed.

Lemma value_head_ok (K : Kernels) m F training x B H W :
  ChessNet_wf F m -> shape x = [B; F; H; W] -> 1 <= B -> H * W = 64 ->
  exists v, value_head K m training x = Ok v /\ shape v = [B; 1].
Proof.
  intros (_ & _ & _ & _ & _ & _ & _ & Hc & Hb & Hl1 & Hl2) Hx HB HHW. unfold value_head.
  destruct (Conv2d_forward_ok K _ _ _ _ _ x B H W Hc ltac:(lia) Hx) as (y1 & -> & Hy1);
    [lia..|].
  replace (H + 2 * 0 + 1 - 1) with H in Hy1 by lia.
  replace (W + 2 * 0 + 1 - 1) with W in Hy1 by lia.
  cbn [mbind Result_bind].
  destruct (BatchNorm2d_forward_ok K _ _ training y1 B H W Hb Hy1) as (y2 & -> & Hy2); [lia|].
  cbn [mbind Result_bind]. unfold size0. cbn [relu shape]. rewrite Hy2.
  cbn [mbind Result_bind].
  rewrite (view_rows_4d _ B 1 H W) by (done || lia). cbn [mbind Result_bind].
  erewrite Linear_forward_2d by (done || reflexivity).
  replace (1 * (H * W) =? 64) with true by (symmetry; apply Nat.eqb_eq; lia).
  cbn [mbind Result_bind].
  erewrite Linear_forward_2d by (done || reflexivity).
  rewrite Nat.eqb_refl. cbn [mbind Result_bind].
  eexists. split; reflexivity.
Qed.

Lemma forward_ok (K : Kernels) m F training x B H W :
  ChessNet_wf F m -> shape x = [B; 18; H; W] -> 1 <= B -> H * W = 64 ->
  exists policy value, forward K m training x = Ok (policy, value) /\
    shape policy = [B; 4096] /\ shape value = [B; 1].
Proof.
  intros Hwf Hx HB HHW.
  assert (1 <= H /\ 1 <= W) as [HH HW] by nia.
  assert (Ht : training = true -> B * (H * W) <> 1) by nia.
  rewrite forward_stages.
  destruct (input_projection_ok K m F training x B H W Hwf Hx HH HW Ht) as (y0 & -> & Hy0).
  cbn [mbind Result_bind].
  destruct (tower_ok K (residual_blocks m) F training y0 B H W) as (y1 & -> & Hy1);
    [apply Hwf | apply Hwf | done..|].
  cbn [mbind Result_bind].
  destruct (policy_head_ok K m F training y1 B H W Hwf Hy1 HB HHW) as (p & -> & Hp).
  destruct (value_head_ok K m F training y1 B H W Hwf Hy1 HB HHW) as (v & -> & Hv).
  cbn [mbind Result_bind]. exists p, v. done.
Qed.

Lemma forward_inv (K : Kernels) m F training x policy value :
  ChessNet_wf F m -> forward K m training x = Ok (policy, value) ->
  exists B H W, shape x = [B; 18; H; W] /\ 1 <= B /\ H * W = 64.
Proof.
  intros Hwf Hfwd. rewrite forward_stages in Hfwd.
  apply bind_Ok in Hfwd as (y0 & Hy0 & Hfwd).
  apply bind_Ok in Hfwd as (y1 & Hy1 & Hfwd).
  apply bind_Ok in Hfwd as (p & Hp & Hfwd).
  destruct (input_projection_inv K m F training x y0 Hwf Hy0)
    as (B & H & W & Hx & HH & HW & Ht & Hs0).
  destruct (tower_ok K (residual_blocks m) F training y0 B H W) as (y1' & Hy1' & Hs1);
    [apply Hwf | apply Hwf | done..|].
  rewrite Hy1 in Hy1'. injection Hy1' as <-.
  destruct (policy_head_inv K m F training y1 B H W p Hwf Hs1 HH HW Hp) as [HB HHW].
  exists B, H, W. done.
Qed.

End Shapes.

Section InitWf.
Import torch model.

Lemma random_parameter_shaped sh g p g' :
  random_parameter sh g = (p, g') -> param_shaped p sh /\ requires_grad p = true.
Proof.
  unfold random_parameter, draw. intros [= <- _]. repeat split.
  cbn [p_data data]. now rewrite length_map, length_seq.
Qed.

Lemma Conv2d_init_wf C Co Kn pad g m g' :
  Conv2d_init C Co Kn pad g = (m, g') -> Conv2d_wf m C Co Kn pad.
Proof.
  unfold Conv2d_init.
  destruct (random_parameter _ g) as [w g1] eqn:Hw. intros [= <- _].
  split; [|reflexivity]. now apply random_parameter_shaped in Hw as [? _].
Qed.

Lemma full_shaped sh v b : param_shaped (mkParameter (full sh v) b) sh.
Proof. split; [reflexivity|]. cbn [p_data data full]. apply length_replicate. Qed.

Lemma BatchNorm2d_init_wf C : BatchNorm2d_wf (BatchNorm2d_init C) C.
Proof. repeat split; apply full_shaped || apply length_replicate. Qed.

Lemma Linear_init_wf Kn Co g m g' :
  Linear_init Kn Co g = (m, g') -> Linear_wf m Kn Co.
Proof.
  unfold Linear_init.
  destruct (random_parameter _ g) as [w g1] eqn:Hw.
  destruct (random_parameter _ g1) as [b g2] eqn:Hb. intros [= <- _].
  apply random_parameter_shaped in Hw as [? _].
  apply random_parameter_shaped in Hb as [? _]. split; done.
Qed.

Lemma ResidualBlock_init_wf F g b g' :
  ResidualBlock_init F g = (b, g') -> ResidualBlock_wf F b.
Proof.
  unfold ResidualBlock_init.
  destruct (Conv2d_init F F 3 1 g) as [c1 g1] eqn:Hc1.
  destruct (Conv2d_init F F 3 1 g1) as [c2 g2] eqn:Hc2. intros [= <- _].
  repeat split; cbn [conv1 bn1 conv2 bn2];
    try apply (Conv2d_init_wf _ _ _ _ _ _ _ Hc1);
    try apply (Conv2d_init_wf _ _ _ _ _ _ _ Hc2);
    apply BatchNorm2d_init_wf.
Qed.

Lemma residual_tower_wf idxs F g blocks g' :
  residual_tower idxs F g = (blocks, g') -> Forall (ResidualBlock_wf F) blocks.
Proof.
  revert g blocks g'. induction idxs as [|i idxs IH]; intros g blocks g'; cbn [residual_tower].
  - intros [= <- _]. constructor.
  - destruct (ResidualBlock_init F g) as [b g1] eqn:Hb.
    destruct (residual_tower idxs F g1) as [bs g2] eqn:Hbs. intros [= <- _].
    constructor; [eapply ResidualBlock_init_wf | eapply IH]; eauto.
Qed.

Lemma ChessNet_init_wf N F g : 1 <= F -> ChessNet_wf F (ChessNet_init N F g).
Proof.
  intros HF. unfold ChessNet_init.
  destruct (Conv2d_init NUM_CHANNELS F 3 1 g) as [c0 g0] eqn:Hc0.
  destruct (residual_tower (range N) F g0) as [blocks g1] eqn:Hblocks.
  destruct (Conv2d_init F 2 1 0 g1) as [pc g2] eqn:Hpc.
  destruct (Linear_init _ POLICY_OUTPUT_SIZE g2) as [pf g3] eqn:Hpf.
  destruct (Conv2d_init F 1 1 0 g3) as [vc g4] eqn:Hvc.
  destruct (Linear_init _ 256 g4) as [vf1 g5] eqn:Hvf1.
  destruct (Linear_init 256 1 g5) as [vf2 g6] eqn:Hvf2.
  unfold ChessNet_wf.
  cbn [initial_conv initial_bn residual_blocks policy_conv policy_bn policy_fc
       value_conv value_bn value_fc1 value_fc2].
  split; [done|].
  split; [exact (Conv2d_init_wf _ _ _ _ _ _ _ Hc0)|].
  split; [apply BatchNorm2d_init_wf|].
  split; [exact (residual_tower_wf _ _ _ _ _ Hblocks)|].
  split; [exact (Conv2d_init_wf _ _ _ _ _ _ _ Hpc)|].
  split; [apply BatchNorm2d_init_wf|].
  split; [exact (Linear_init_wf _ _ _ _ _ Hpf)|].
  split; [exact (Conv2d_init_wf _ _ _ _ _ _ _ Hvc)|].
  split; [apply BatchNorm2d_init_wf|].
  split; [exact (Linear_init_wf _ _ _ _ _ Hvf1)|].
  exact (Linear_init_wf _ _ _ _ _ Hvf2).
Qed.

End InitWf.

Section Layers.
Import torch model.

(** Lengths of flat lists. *)

Lemma length_flat_map_uniform {A B} (f : A -> list B) (l : list A) n :
  (forall x, In x l -> length (f x) = n) -> length (flat_map f l) = length l * n.
Proof.
  induction l as [|x l IH]; intros Hf; cbn [flat_map length]; [done|].
  rewrite length_app, Hf by (now left). rewrite IH; [lia|].
  intros y Hy. apply Hf. now right.
Qed.

Lemma length_concat_imap {A B} (f : nat -> A -> list B) (l : list A) n :
  (forall i x, In x l -> length (f i x) = n) -> length (concat (imap f l)) = length l * n.
Proof.
  revert f. induction l as [|x l IH]; intros f Hf; cbn [imap concat length]; [done|].
  rewrite length_app, Hf by (now left). rewrite IH; [lia|].
  intros i y Hy. apply Hf. now right.
Qed.


Lemma length_chunks {A} n k (l : list A) : length (chunks n k l) = k.
Proof. unfold chunks. now rewrite length_map, length_seq. Qed.

Lemma chunks_uniform {A} n k (l : list A) c :
  length l = k * n -> In c (chunks n k l) -> length c = n.
Proof.
  intros Hl Hc. unfold chunks in Hc. apply in_map_iff in Hc as (i & <- & Hi).
  apply in_seq in Hi. rewrite length_take, length_drop. nia.
Qed.


Lemma length_conv2d_sample K B w Co C KH KW pad H W n x :
  length (conv2d_sample K B w Co C KH KW pad H W n x)
  = Co * ((H + 2 * pad + 1 - KH) * (W + 2 * pad + 1 - KW)).
Proof.
  unfold conv2d_sample.
  rewrite (length_flat_map_uniform _ _ ((H + 2 * pad + 1 - KH) * (W + 2 * pad + 1 - KW))).
  - now rewrite length_seq.
  - intros o _. rewrite (length_flat_map_uniform _ _ (W + 2 * pad + 1 - KW)).
    + now rewrite length_seq.
    + intros i _. now rewrite length_map, length_seq.
Qed.

Lemma length_channel_plane HW C c sample :
  length sample = C * HW -> c < C -> length (channel_plane HW c sample) = HW.
Proof.
  intros Hl Hc. unfold channel_plane. rewrite length_take, length_drop. nia.
Qed.

Lemma length_batch_norm_sample C HW mean var weight bias e sample :
  length sample = C * HW ->
  length (batch_norm_sample C HW mean var weight bias e sample) = C * HW.
Proof.
  intros Hl. unfold batch_norm_sample.
  rewrite (length_flat_map_uniform _ _ HW).
  - now rewrite length_seq.
  - intros c Hc. apply in_seq in Hc. rewrite length_map.
    apply length_channel_plane with C; [done | lia].
Qed.

Lemma length_linear_row K B w b Kn Co n r : length (linear_row K B w b Kn Co n r) = Co.
Proof. unfold linear_row. now rewrite length_map, length_seq. Qed.



(** Exact results of the layers on a batch. *)

Lemma Conv2d_forward_4d (K : Kernels) m C Co Kn pad x B H W :
  Conv2d_wf m C Co Kn pad -> 1 <= Co -> shape x = [B; C; H; W] ->
  Kn <= H + 2 * pad -> Kn <= W + 2 * pad ->
  Conv2d_forward K m x =
    Ok (mkTensor [B; Co; H + 2 * pad + 1 - Kn; W + 2 * pad + 1 - Kn]
          (concat (imap (conv2d_sample K B (data (p_data (conv_weight m))) Co C Kn Kn pad H W)
                     (chunks (C * (H * W)) B (data x))))).
Proof.
  intros [[Hw _] Hp] HCo Hx HH HW. unfold Conv2d_forward. rewrite Hw, Hx, Hp.
  rewrite Nat.eqb_refl.
  replace (1 <=? Co) with true by (symmetry; apply Nat.leb_le; done).
  replace (Kn <=? H + 2 * pad) with true by (symmetry; apply Nat.leb_le; done).
  replace (Kn <=? W + 2 * pad) with true by (symmetry; apply Nat.leb_le; done).
  reflexivity.
Qed.

Lemma BatchNorm2d_forward_4d (K : Kernels) m C training x B H W :
  BatchNorm2d_wf m C -> shape x = [B; C; H; W] ->
  (training = true -> B * (H * W) <> 1) ->
  BatchNorm2d_forward K m training x =
    Ok (mkTensor [B; C; H; W]
          (flat_map
             (batch_norm_sample C (H * W)
                (fun c =>
                   if training
                   then k_mean K (channel_values (H * W) (chunks (C * (H * W)) B (data x)) c)
                   else nth c (data (running_mean m)) f32.zero)
                (fun c =>
                   if training
                   then k_var K (channel_values (H * W) (chunks (C * (H * W)) B (data x)) c)
                   else nth c (data (running_var m)) f32.zero)
                (fun c => nth c (data (p_data (bn_weight m))) f32.zero)
                (fun c => nth c (data (p_data (bn_bias m))) f32.zero) (eps m))
             (chunks (C * (H * W)) B (data x)))).
Proof.
  intros (Hf & _) Hx Ht. unfold BatchNorm2d_forward. rewrite Hx, Hf, Nat.eqb_refl.
  replace (training && (B * (H * W) =? 1)) with false.
  2:{ symmetry. destruct training; [|done]. apply Nat.eqb_neq. now apply Ht. }
  reflexivity.
Qed.

(** Zeros through the layers. *)














End Layers.

Section Outputs.
Import torch model.

Lemma Linear_forward_length K m x y :
  Linear_forward K m x = Ok y ->
  exists B Co, shape y = [B; Co] /\ length (data y) = B * Co.
Proof.
  unfold Linear_forward.
  destruct (shape (p_data (lin_weight m))) as [|Co [|Kn [|? ?]]]; try discriminate.
  destruct (shape x) as [|B [|Kx [|? ?]]]; try discriminate.
  destruct (Kx =? Kn); [|discriminate]. intros [= <-]. exists B, Co. split; [reflexivity|].
  cbn [data]. rewrite (length_concat_imap _ _ Co).
  - now rewrite length_chunks.
  - intros n r _. apply length_linear_row.
Qed.

Lemma forward_outputs_wf K m training x policy value :
  forward K m training x = Ok (policy, value) -> Tensor_wf policy /\ Tensor_wf value.
Proof.
  intros Hfwd. rewrite forward_stages in Hfwd.
  apply bind_Ok in Hfwd as (y0 & _ & Hfwd).
  apply bind_Ok in Hfwd as (y1 & _ & Hfwd).
  apply bind_Ok in Hfwd as (p & Hp & Hfwd).
  apply bind_Ok in Hfwd as (v & Hv & Hfwd).
  injection Hfwd as <- <-. split.
  - unfold policy_head in Hp.
    repeat (apply bind_Ok in Hp as (? & _ & Hp)).
    apply Linear_forward_length in Hp as (B & Co & Hs & Hl).
    unfold Tensor_wf. rewrite Hs, Hl. unfold numel. cbn [foldr]. lia.
  - unfold value_head in Hv.
    apply bind_Ok in Hv as (? & _ & Hv). apply bind_Ok in Hv as (? & _ & Hv).
    apply bind_Ok in Hv as (? & _ & Hv). apply bind_Ok in Hv as (? & _ & Hv).
    apply bind_Ok in Hv as (? & _ & Hv). apply bind_Ok in Hv as (u & Hu & Hv).
    injection Hv as <-.
    apply Linear_forward_length in Hu as (B & Co & Hs & Hl).
    unfold Tensor_wf. cbn [torch.tanh shape data]. rewrite length_map, Hs, Hl.
    unfold numel. cbn [foldr]. lia.
Qed.

Lemma value_head_tanh K m training x v :
  value_head K m training x = Ok v -> exists u, v = torch.tanh K u.
Proof.
  unfold value_head. intros Hv.
  repeat (apply bind_Ok in Hv as (? & _ & Hv)).
  injection Hv as <-. eauto.
Qed.

(** The value output is what the tangent returns: NaN or a number of
    [[-1, 1]]. *)
Lemma forward_value_range K m training x policy value :
  tanh_in_range K -> forward K m training x = Ok (policy, value) ->
  Forall (fun v => v = S754_nan \/ f32.between (f32.opp f32.one) f32.one v = true)
    (data value).
Proof.
  intros HK Hfwd. rewrite forward_stages in Hfwd.
  apply bind_Ok in Hfwd as (y0 & _ & Hfwd).
  apply bind_Ok in Hfwd as (y1 & _ & Hfwd).
  apply bind_Ok in Hfwd as (p' & _ & Hfwd).
  apply bind_Ok in Hfwd as (v' & Hv' & Hfwd).
  injection Hfwd as _ <-.
  apply value_head_tanh in Hv' as (u & ->). cbn [torch.tanh data].
  apply Forall_map, List.Forall_forall. intros r _. apply HK.
Qed.

Lemma small_net_wf : ChessNet_wf 1 small_net.
Proof.
  unfold ChessNet_wf, small_net. cbv zeta.
  cbn [initial_conv initial_bn residual_blocks policy_conv policy_bn policy_fc
       value_conv value_bn value_fc1 value_fc2].
  split; [lia|].
  split; [split; [apply full_shaped | reflexivity]|].
  split; [apply BatchNorm2d_init_wf|].
  split; [constructor|].
  split; [split; [apply full_shaped | reflexivity]|].
  split; [apply BatchNorm2d_init_wf|].
  split; [split; apply full_shaped|].
  split; [split; [apply full_shaped | reflexivity]|].
  split; [apply BatchNorm2d_init_wf|].
  split; [split; apply full_shaped|].
  split; [|apply full_shaped].
  split; [reflexivity|]. cbn [p_data data lin_weight].
  rewrite length_app, length_replicate. reflexivity.
Qed.

End Outputs.

Section ForwardProperties.
Import torch model.

(** C1, as the code has it. For a network with well-shaped parameters,
    [forward] returns a (policy, value) pair of shapes (B, 4096) and
    (B, 1) on every input of shape (B, 18, H, W) with B >= 1 and
    H * W = 64, and raises an exception on every other input. *)
Theorem forward_returns_iff_64_cells (K : Kernels) (m : ChessNet) (F : nat)
  (training : bool) (x : Tensor) :
  ChessNet_wf F m ->
  (forall B H W, shape x = [B; 18; H; W] -> 1 <= B -> H * W = 64 ->
     exists policy value, forward K m training x = Ok (policy, value) /\
       shape policy = [B; 4096] /\ shape value = [B; 1]) /\
  ((~ exists B H W, shape x = [B; 18; H; W] /\ 1 <= B /\ H * W = 64) ->
     exists e, forward K m training x = Raise e).
Proof.
  intros Hwf. split.
  - intros B H W Hx HB HHW. eapply forward_ok; eauto.
  - intros Hno. destruct (forward K m training x) as [[policy value]|e] eqn:Hfwd; [|eauto].
    exfalso. apply Hno. eapply forward_inv; eauto.
Qed.

Lemma forward_returns_iff_64_cells_witness :
  (forall B H W, shape (full [2; 18; 8; 8] f32.one) = [B; 18; H; W] -> 1 <= B ->
     H * W = 64 ->
     exists policy value,
       forward sequential (ChessNet_init 6 128 counting_generator) true
         (full [2; 18; 8; 8] f32.one) = Ok (policy, value) /\
       shape policy = [B; 4096] /\ shape value = [B; 1]) /\
  ((~ exists B H W, shape (full [2; 18; 8; 8] f32.one) = [B; 18; H; W] /\ 1 <= B /\
        H * W = 64) ->
     exists e,
       forward sequential (ChessNet_init 6 128 counting_generator) true
         (full [2; 18; 8; 8] f32.one) = Raise e).
Proof.
  apply (forward_returns_iff_64_cells sequential (ChessNet_init 6 128 counting_generator)
           128 true (full [2; 18; 8; 8] f32.one)).
  apply ChessNet_init_wf. lia.
Defined.

(** C1 as stated fails: the default network returns a pair on an input
    of 18 channels whose planes are 4 x 16, not 8 x 8. *)
Lemma forward_accepts_4_by_16 :
  [4; 16] <> [8; 8] /\
  exists policy value,
    forward sequential (ChessNet_init 6 128 zero_generator) false
      (full [1; 18; 4; 16] f32.zero) = Ok (policy, value) /\
    shape policy = [1; 4096] /\ shape value = [1; 1].
Proof.
  split; [discriminate|].
  apply (forward_ok sequential _ 128 false _ 1 4 16);
    [apply ChessNet_init_wf; lia | reflexivity | lia | reflexivity].
Qed.

(** C4, as the code has it.  On an input of shape (B, 18, 8, 8),
    whatever float32 numbers it holds: every element of a value output
    that [forward] returns is NaN or lies in [-1, 1], the range of the
    tangent that produces it; and [forward] does return one, of shape
    (B, 1) and with B elements, when the batch is not empty. *)
Theorem value_output_in_unit_interval (K : Kernels) (m : ChessNet) (F : nat)
  (training : bool) (x : Tensor) (B : nat) :
  tanh_in_range K -> ChessNet_wf F m -> shape x = [B; 18; 8; 8] ->
  (forall policy value, forward K m training x = Ok (policy, value) ->
     Forall (fun v => v = S754_nan \/ f32.between (f32.opp f32.one) f32.one v = true)
       (data value)) /\
  (1 <= B ->
     exists policy value, forward K m training x = Ok (policy, value) /\
       shape value = [B; 1] /\ length (data value) = B).
Proof.
  intros HK Hwf Hx. split.
  - intros p v Hfwd. eapply forward_value_range; eauto.
  - intros HB.
    destruct (forward_ok K m F training x B 8 8 Hwf Hx HB eq_refl) as (p & v & Hfwd & _ & Hv).
    exists p, v. split; [done|]. split; [done|].
    destruct (forward_outputs_wf K m training x p v Hfwd) as [_ Hwv].
    unfold Tensor_wf in Hwv. rewrite Hwv, Hv. unfold numel. cbn [foldr]. lia.
Qed.

Lemma value_output_in_unit_interval_witness :
  (forall policy value,
     forward sequential (ChessNet_init 6 128 counting_generator) true
       (full [3; 18; 8; 8] f32.max_float) = Ok (policy, value) ->
     Forall (fun v => v = S754_nan \/ f32.between (f32.opp f32.one) f32.one v = true)
       (data value)) /\
  (1 <= 3 ->
     exists policy value,
       forward sequential (ChessNet_init 6 128 counting_generator) true
         (full [3; 18; 8; 8] f32.max_float) = Ok (policy, value) /\
       shape value = [3; 1] /\ length (data value) = 3).
Proof.
  apply (value_output_in_unit_interval sequential (ChessNet_init 6 128 counting_generator)
           128 true (full [3; 18; 8; 8] f32.max_float) 3);
    [apply sequential_tanh_in_range | apply ChessNet_init_wf; lia | reflexivity].
Defined.

(** C4 as stated fails: on an input of shape (1, 18, 8, 8) that holds
    the largest float32 in every cell, a finite number, the value that
    [forward] returns is NaN, in inference mode and in training mode.
    The sums of the first convolution overflow to infinity; in
    inference mode the last layer adds products of opposite signs,
    [inf - inf]; in training mode the normalisation subtracts the
    infinite mean. *)
Lemma value_output_nan :
  finite (data (full [1; 18; 8; 8] f32.max_float)) /\
  (exists policy,
     forward sequential small_net false (full [1; 18; 8; 8] f32.max_float)
       = Ok (policy, mkTensor [1; 1] [S754_nan])) /\
  (exists policy,
     forward sequential small_net true (full [1; 18; 8; 8] f32.max_float)
       = Ok (policy, mkTensor [1; 1] [S754_nan])) /\
  f32.between (f32.opp f32.one) f32.one S754_nan = false.
Proof.
  split; [apply Forall_replicate; reflexivity|].
  assert (Hval : forall training,
    match forward sequential small_net training (full [1; 18; 8; 8] f32.max_float) with
    | Ok (p, v) => data v = [S754_nan]
    | Raise _ => False
    end).
  { intros []; lazy; reflexivity. }
  assert (Hfwd : forall training, exists policy,
    forward sequential small_net training (full [1; 18; 8; 8] f32.max_float)
      = Ok (policy, mkTensor [1; 1] [S754_nan])).
  { intros training. specialize (Hval training).
    destruct (forward_ok sequential small_net 1 training (full [1; 18; 8; 8] f32.max_float)
                1 8 8 small_net_wf eq_refl ltac:(lia) eq_refl) as (p & v & Hpv & _ & Hs).
    rewrite Hpv in Hval. exists p. rewrite Hpv. do 2 f_equal.
    destruct v as [sh d]. cbn in Hs, Hval. now subst. }
  split; [apply Hfwd|]. split; [apply Hfwd|]. reflexivity.
Qed.

End ForwardProperties.

Section ResidualBlockProperty.
Import torch model.









End ResidualBlockProperty.

Section Batches.
Import torch model.

Lemma chunks_S {A} n k (l : list A) :
  chunks n (S k) l = take n l :: chunks n k (drop n l).
Proof.
  unfold chunks. cbn [seq map]. rewrite drop_0. f_equal.
  rewrite <- seq_shift, map_map. apply map_ext. intros i.
  rewrite drop_drop. reflexivity.
Qed.

Lemma chunks_concat {A} n (ys : list (list A)) :
  (forall y, In y ys -> length y = n) -> chunks n (length ys) (concat ys) = ys.
Proof.
  induction ys as [|y ys IH]; intros Hlen; [reflexivity|].
  cbn [length concat]. rewrite chunks_S.
  assert (Hy : length y = n) by (apply Hlen; now left).
  rewrite take_app_length' by done. rewrite drop_app_length' by done.
  f_equal. apply IH. intros z Hz. apply Hlen. now right.
Qed.

Lemma row_concat {A} n (ys : list (list A)) i y :
  (forall z, In z ys -> length z = n) -> ys !! i = Some y ->
  take n (drop (i * n) (concat ys)) = y.
Proof.
  revert i. induction ys as [|z ys IH]; intros i Hlen Hi; [discriminate|].
  assert (Hz : length z = n) by (apply Hlen; now left).
  destruct i as [|i]; cbn [concat].
  - injection Hi as ->. cbn [Nat.mul]. rewrite drop_0. now apply take_app_length'.
  - cbn in Hi. replace (S i * n) with (n + i * n) by lia.
    rewrite <- drop_drop, drop_app_length' by done.
    apply IH; [|done]. intros w Hw. apply Hlen. now right.
Qed.

Lemma numel3 C H W : numel [C; H; W] = C * (H * W).
Proof. unfold numel. cbn [foldr]. lia. Qed.

Lemma per_sample_stack sh xs :
  Forall (fun x => length x = numel sh) xs -> per_sample (stack sh xs) sh (fun s => s) xs.
Proof.
  intros Hxs. repeat split.
  - cbn [stack data]. now rewrite List.map_id.
  - intros x Hx. eapply (proj1 (List.Forall_forall _ xs) Hxs). done.
Qed.

Lemma per_sample_chunks t sh h xs :
  per_sample t sh h xs -> chunks (numel sh) (length xs) (data t) = map h xs.
Proof.
  intros (_ & -> & Hlen). rewrite <- (length_map h xs). apply chunks_concat.
  intros y Hy. apply in_map_iff in Hy as (x & <- & Hx). now apply Hlen.
Qed.

Lemma flat_map_map_concat {A B C} (f : B -> list C) (h : A -> B) xs :
  flat_map f (map h xs) = concat (map (fun x => f (h x)) xs).
Proof. rewrite flat_map_concat_map, map_map. reflexivity. Qed.

Lemma concat_imap_map {A B} (f : nat -> A -> list B) (g : A -> list B) l :
  (forall n x, f n x = g x) -> concat (imap f l) = concat (map g l).
Proof.
  intros Hfg. f_equal. revert f Hfg. induction l as [|x l IH]; intros f Hfg; [reflexivity|].
  cbn [imap map]. rewrite Hfg. f_equal. apply IH. intros n y. apply Hfg.
Qed.

Lemma conv2d_sample_independent K B w Co C KH KW pad H W n x :
  batch_independent K ->
  conv2d_sample K B w Co C KH KW pad H W n x = conv2d_sample K 1 w Co C KH KW pad H W 0 x.
Proof.
  intros HK. unfold conv2d_sample.
  apply flat_map_ext. intros o. apply flat_map_ext. intros i. apply map_ext. intros j.
  unfold conv2d_cell. apply HK.
Qed.

Lemma linear_row_independent K B w b Kn Co n r :
  batch_independent K -> linear_row K B w b Kn Co n r = linear_row K 1 w b Kn Co 0 r.
Proof.
  intros HK. unfold linear_row. apply map_ext. intros o. f_equal. apply HK.
Qed.

Lemma Conv2d_forward_per_sample (K : Kernels) m C Co Kn pad t H W h xs :
  batch_independent K -> 1 <= Co ->
  Conv2d_wf m C Co Kn pad -> per_sample t [C; H; W] h xs ->
  Kn <= H + 2 * pad -> Kn <= W + 2 * pad ->
  exists y, Conv2d_forward K m t = Ok y /\
    per_sample y [Co; H + 2 * pad + 1 - Kn; W + 2 * pad + 1 - Kn]
      (fun s => Conv2d_sample K m C Co Kn H W (h s)) xs.
Proof.
  intros HK HCo Hwf Ht HH HW. pose proof Ht as (Hs & Hd & Hl).
  rewrite (Conv2d_forward_4d K _ _ _ _ _ _ _ _ _ Hwf HCo Hs HH HW).
  eexists. split; [reflexivity|].
  pose proof (per_sample_chunks _ _ _ _ Ht) as Hch. rewrite numel3 in Hch.
  rewrite Hch.
  rewrite (concat_imap_map _
             (conv2d_sample K 1 (data (p_data (conv_weight m))) Co C Kn Kn pad H W 0))
    by (intros n s; now apply conv2d_sample_independent).
  rewrite map_map. destruct Hwf as [_ Hp].
  repeat split; cbn [shape data]; unfold Conv2d_sample; rewrite Hp; try done.
  intros x _. rewrite numel3. apply length_conv2d_sample.
Qed.

Lemma BatchNorm2d_forward_per_sample (K : Kernels) m C t H W h xs :
  BatchNorm2d_wf m C -> per_sample t [C; H; W] h xs ->
  exists y, BatchNorm2d_forward K m false t = Ok y /\
    per_sample y [C; H; W] (fun s => BatchNorm2d_sample m C (H * W) (h s)) xs.
Proof.
  intros Hwf Ht. pose proof Ht as (Hs & Hd & Hl).
  rewrite (BatchNorm2d_forward_4d K _ _ false t _ H W Hwf Hs) by discriminate.
  eexists. split; [reflexivity|].
  pose proof (per_sample_chunks _ _ _ _ Ht) as Hch. rewrite numel3 in Hch.
  rewrite Hch, flat_map_map_concat.
  repeat split; cbn [shape data]; try done.
  intros x Hx. unfold BatchNorm2d_sample. rewrite numel3.
  apply length_batch_norm_sample. rewrite <- numel3. now apply Hl.
Qed.

Lemma relu_per_sample t sh h xs :
  per_sample t sh h xs -> per_sample (relu t) sh (fun s => relu_sample (h s)) xs.
Proof.
  intros (Hs & Hd & Hl). repeat split; cbn [relu shape data]; [done | |].
  - rewrite Hd, concat_map, map_map. reflexivity.
  - intros x Hx. unfold relu_sample. rewrite length_map. now apply Hl.
Qed.

Lemma tanh_per_sample (K : Kernels) t sh h xs :
  per_sample t sh h xs ->
  per_sample (torch.tanh K t) sh (fun s => map (k_tanh K) (h s)) xs.
Proof.
  intros (Hs & Hd & Hl). repeat split; cbn [torch.tanh shape data]; [done | |].
  - rewrite Hd, concat_map, map_map. reflexivity.
  - intros x Hx. rewrite length_map. now apply Hl.
Qed.

Lemma zip_with_concat_map {A} (op : spec_float -> spec_float -> spec_float)
  (f g : A -> list spec_float) xs :
  (forall x, In x xs -> length (f x) = length (g x)) ->
  zip_with op (concat (map f xs)) (concat (map g xs))
  = concat (map (fun x => zip_with op (f x) (g x)) xs).
Proof.
  induction xs as [|x xs IH]; intros Hlen; [reflexivity|].
  cbn [map concat]. rewrite zip_with_app by (apply Hlen; now left).
  f_equal. apply IH. intros y Hy. apply Hlen. now right.
Qed.

Lemma add_per_sample a b sh h1 h2 xs :
  per_sample a sh h1 xs -> per_sample b sh h2 xs ->
  exists y, add a b = Ok y /\
    per_sample y sh (fun s => zip_with f32.add (h1 s) (h2 s)) xs.
Proof.
  intros (Hs1 & Hd1 & Hl1) (Hs2 & Hd2 & Hl2).
  rewrite add_ok by congruence. eexists. split; [reflexivity|].
  repeat split; cbn [shape data]; [done | |].
  - rewrite Hd1, Hd2. apply zip_with_concat_map.
    intros x Hx. rewrite Hl1, Hl2; done.
  - intros x Hx. rewrite length_zip_with, Hl1, Hl2 by done. lia.
Qed.

Lemma view_rows_per_sample t C H W h xs :
  per_sample t [C; H; W] h xs -> xs <> [] ->
  exists y, (size ← size0 t; view_rows t size) = Ok y /\
    per_sample y [C * (H * W)] h xs.
Proof.
  intros (Hs & Hd & Hl) Hne. unfold size0. rewrite Hs. cbn [mbind Result_bind].
  rewrite (view_rows_4d _ _ C H W Hs) by (destruct xs; [done | discriminate]).
  eexists. split; [reflexivity|]. repeat split; cbn [shape data]; [done|].
  intros x Hx. rewrite Hl by done. rewrite numel3. unfold numel. cbn [foldr]. lia.
Qed.

Lemma Linear_forward_per_sample (K : Kernels) m Kn Co t h xs :
  batch_independent K ->
  Linear_wf m Kn Co -> per_sample t [Kn] h xs ->
  exists y, Linear_forward K m t = Ok y /\
    per_sample y [Co] (fun s => Linear_sample K m Kn Co (h s)) xs.
Proof.
  intros HK Hwf Ht. pose proof Ht as (Hs & Hd & Hl).
  rewrite (Linear_forward_2d K _ _ _ _ _ _ Hwf Hs), Nat.eqb_refl.
  eexists. split; [reflexivity|].
  pose proof (per_sample_chunks _ _ _ _ Ht) as Hch.
  replace (numel [Kn]) with Kn in Hch by (unfold numel; cbn [foldr]; lia).
  rewrite Hch.
  rewrite (concat_imap_map _
             (linear_row K 1 (data (p_data (lin_weight m))) (data (p_data (lin_bias m)))
                Kn Co 0))
    by (intros n s; now apply linear_row_independent).
  rewrite map_map.
  repeat split; cbn [shape data]; try done.
  intros x _. unfold Linear_sample. rewrite length_linear_row.
  unfold numel. cbn [foldr]. lia.
Qed.

Lemma ResidualBlock_forward_per_sample (K : Kernels) b F t H W h xs :
  batch_independent K -> 1 <= F ->
  ResidualBlock_wf F b -> per_sample t [F; H; W] h xs -> 1 <= H -> 1 <= W ->
  exists y, ResidualBlock_forward K b false t = Ok y /\
    per_sample y [F; H; W] (fun s => block_sample K F H W b (h s)) xs.
Proof.
  intros HK HF (Hc1 & Hb1 & Hc2 & Hb2) Ht HH HW. unfold ResidualBlock_forward.
  destruct (Conv2d_forward_per_sample K _ _ _ _ _ t H W h xs HK HF Hc1 Ht) as (y1 & -> & H1);
    [lia..|].
  replace (H + 2 * 1 + 1 - 3) with H in H1 by lia.
  replace (W + 2 * 1 + 1 - 3) with W in H1 by lia.
  cbn [mbind Result_bind].
  destruct (BatchNorm2d_forward_per_sample K _ _ y1 H W _ xs Hb1 H1) as (y2 & -> & H2).
  cbn [mbind Result_bind]. apply relu_per_sample in H2.
  destruct (Conv2d_forward_per_sample K _ _ _ _ _ (relu y2) H W _ xs HK HF Hc2 H2)
    as (y3 & -> & H3);
    [lia..|].
  replace (H + 2 * 1 + 1 - 3) with H in H3 by lia.
  replace (W + 2 * 1 + 1 - 3) with W in H3 by lia.
  cbn [mbind Result_bind].
  destruct (BatchNorm2d_forward_per_sample K _ _ y3 H W _ xs Hb2 H3) as (y4 & -> & H4).
  cbn [mbind Result_bind].
  destruct (add_per_sample y4 t _ _ _ xs H4 Ht) as (y5 & -> & H5).
  cbn [mbind Result_bind]. apply relu_per_sample in H5.
  eexists. split; [reflexivity|]. exact H5.
Qed.

Lemma tower_per_sample (K : Kernels) blocks F t H W h xs :
  batch_independent K -> 1 <= F ->
  Forall (ResidualBlock_wf F) blocks -> per_sample t [F; H; W] h xs -> 1 <= H -> 1 <= W ->
  exists y, tower K blocks false t = Ok y /\
    per_sample y [F; H; W] (fun s => foldl (fun s b => block_sample K F H W b s) (h s) blocks) xs.
Proof.
  intros HK HF Hwf. revert t h. induction Hwf as [|b blocks Hb _ IH]; intros t h Ht HH HW.
  - exists t. split; done.
  - unfold tower. cbn [for_each].
    destruct (ResidualBlock_forward_per_sample K b F t H W h xs HK HF Hb Ht HH HW)
      as (y & -> & Hy).
    cbn [mbind Result_bind]. destruct (IH y _ Hy HH HW) as (z & Hz & Hz').
    exists z. split; done.
Qed.

(** In inference mode the network maps a batch sample by sample. *)
Lemma forward_eval_stack (K : Kernels) m F xs :
  batch_independent K ->
  ChessNet_wf F m -> xs <> [] -> Forall (fun x => length x = 18 * 8 * 8) xs ->
  forward K m false (stack [18; 8; 8] xs) =
    Ok (mkTensor [length xs; 4096] (concat (map (policy_sample K F m) xs)),
        mkTensor [length xs; 1] (concat (map (value_sample K F m) xs))) /\
  forall x, In x xs ->
    length (policy_sample K F m x) = 4096 /\ length (value_sample K F m x) = 1.
Proof.
  intros HK Hwf Hne Hxs.
  destruct Hwf as (HF & Hc0 & Hb0 & Hblocks & Hpc & Hpb & Hpf & Hvc & Hvb & Hvf1 & Hvf2).
  assert (H0 : per_sample (stack [18; 8; 8] xs) [18; 8; 8] (fun s => s) xs).
  { apply per_sample_stack. eapply Forall_impl; [exact Hxs|]. intros x ->. reflexivity. }
  unfold forward.
  destruct (Conv2d_forward_per_sample K _ _ _ _ _ _ 8 8 _ xs HK HF Hc0 H0)
    as (y1 & -> & H1); [lia..|].
  change (8 + 2 * 1 + 1 - 3) with 8 in H1. cbn [mbind Result_bind].
  destruct (BatchNorm2d_forward_per_sample K _ _ y1 8 8 _ xs Hb0 H1) as (y2 & -> & H2).
  cbn [mbind Result_bind]. apply relu_per_sample in H2.
  destruct (tower_per_sample K _ F (relu y2) 8 8 _ xs HK HF Hblocks H2)
    as (y3 & Hy3 & H3); [lia..|].
  unfold tower in Hy3. rewrite Hy3. cbn [mbind Result_bind].
  (* policy head *)
  destruct (Conv2d_forward_per_sample K _ _ 2 _ _ y3 8 8 _ xs HK ltac:(lia) Hpc H3)
    as (p1 & -> & Hp1); [lia..|].
  change (8 + 2 * 0 + 1 - 1) with 8 in Hp1. cbn [mbind Result_bind].
  destruct (BatchNorm2d_forward_per_sample K _ _ p1 8 8 _ xs Hpb Hp1) as (p2 & -> & Hp2).
  cbn [mbind Result_bind]. apply relu_per_sample in Hp2.
  destruct (view_rows_per_sample (relu p2) 2 8 8 _ xs Hp2 Hne) as (p3 & Hp3' & Hp3).
  apply bind_Ok in Hp3' as (sz & -> & Hp3'). cbn [mbind Result_bind]. rewrite Hp3'.
  cbn [mbind Result_bind].
  destruct (Linear_forward_per_sample K _ _ _ p3 _ xs HK Hpf Hp3) as (p4 & -> & Hp4).
  cbn [mbind Result_bind].
  (* value head *)
  destruct (Conv2d_forward_per_sample K _ _ 1 _ _ y3 8 8 _ xs HK ltac:(lia) Hvc H3)
    as (v1 & -> & Hv1); [lia..|].
  change (8 + 2 * 0 + 1 - 1) with 8 in Hv1. cbn [mbind Result_bind].
  destruct (BatchNorm2d_forward_per_sample K _ _ v1 8 8 _ xs Hvb Hv1) as (v2 & -> & Hv2).
  cbn [mbind Result_bind]. apply relu_per_sample in Hv2.
  destruct (view_rows_per_sample (relu v2) 1 8 8 _ xs Hv2 Hne) as (v3 & Hv3' & Hv3).
  apply bind_Ok in Hv3' as (sz' & -> & Hv3'). cbn [mbind Result_bind]. rewrite Hv3'.
  cbn [mbind Result_bind].
  destruct (Linear_forward_per_sample K _ _ _ v3 _ xs HK Hvf1 Hv3) as (v4 & -> & Hv4).
  cbn [mbind Result_bind]. apply relu_per_sample in Hv4.
  destruct (Linear_forward_per_sample K _ _ _ (relu v4) _ xs HK Hvf2 Hv4) as (v5 & -> & Hv5).
  cbn [mbind Result_bind]. apply (tanh_per_sample K) in Hv5.
  destruct Hp4 as (Hps & Hpd & Hpl). destruct Hv5 as (Hvs & Hvd & Hvl).
  split.
  - f_equal. f_equal.
    + destruct p4 as [psh pd]. cbn [shape data] in Hps, Hpd. now subst.
    + destruct (torch.tanh K v5) as [vsh vd]. cbn [shape data] in Hvs, Hvd. now subst.
  - intros x Hx. split; [apply (Hpl x Hx) | apply (Hvl x Hx)].
Qed.

End Batches.

Section BatchProperty.
Import torch model.





End BatchProperty.

(** * Further properties of the encoder and of the network *)

Example get_device_priority :
  get_device (torch_device.mkBackends true true) = torch_device.mps /\
  get_device (torch_device.mkBackends false true) = torch_device.cuda /\
  get_device (torch_device.mkBackends false false) = torch_device.cpu.
Proof. repeat split. Qed.

Example to_unavailable_device :
  torch_device.to (torch_device.mkBackends false false)
    (torch_device.mkPlaced (torch.full [2] f32.one) torch_device.cpu) torch_device.cuda
    = Raise RuntimeError /\
  torch_device.to (torch_device.mkBackends false true)
    (torch_device.mkPlaced (torch.full [2] f32.one) torch_device.cpu) torch_device.cuda
    = Ok (torch_device.mkPlaced (torch.full [2] f32.one) torch_device.cuda).
Proof. split; reflexivity. Qed.

Example stack_rejects :
  torch_device.stack [] = Raise RuntimeError /\
  torch_device.stack [torch.full [2; 2] f32.zero; torch.full [4] f32.zero]
    = Raise RuntimeError.
Proof. split; reflexivity. Qed.

Section EncoderMore.
Import chess board_encoder.

Lemma bit_value_inj b1 b2 : bit_value b1 = bit_value b2 -> b1 = b2.
Proof. destruct b1, b2; cbn; intros H; try reflexivity; discriminate. Qed.

Lemma square_coords sq :
  sq < 64 -> sq / 8 < 8 /\ sq mod 8 < 8 /\ 8 * (sq / 8) + sq mod 8 = sq.
Proof.
  intros Hsq. pose proof (Nat.div_mod_eq sq 8). pose proof (Nat.mod_upper_bound sq 8).
  split; [apply Nat.Div0.div_lt_upper_bound; lia | lia].
Qed.

Lemma piece_plane_inj p p' : piece_plane p = piece_plane p' -> p = p'.
Proof. destruct p as [[] []], p' as [[] []]; cbn; intros H; try reflexivity; discriminate. Qed.

(** Two arrays with the same cells are the same array. *)
Lemma cells_unique a a' g : cells a g -> cells a' g -> a = a'.
Proof.
  intros (Hd & Hs & Hl & Hc) (Hd' & Hs' & Hl' & Hc').
  destruct a as [d s l], a' as [d' s' l']. cbn in *. subst. f_equal.
  apply list_eq. intros i.
  destruct (Nat.lt_ge_cases i 1152) as [Hi|Hi].
  - pose proof (Nat.div_mod_eq i 8) as H1.
    pose proof (Nat.div_mod_eq (i / 8) 8) as H2.
    pose proof (Nat.mod_upper_bound i 8 ltac:(lia)) as H3.
    pose proof (Nat.mod_upper_bound (i / 8) 8 ltac:(lia)) as H4.
    assert (Hi' : i = np.offset3 8 8 (i / 8 / 8) ((i / 8) mod 8) (i mod 8))
      by (unfold np.offset3; lia).
    rewrite Hi'. rewrite Hc, Hc' by lia. reflexivity.
  - rewrite !lookup_ge_None_2 by lia. reflexivity.
Qed.

Lemma plane_bit_same_view b b' c r f :
  same_view b b' -> c < 18 -> r < 8 -> f < 8 -> plane_bit b c r f = plane_bit b' c r f.
Proof.
  intros (Hp & Ht & Hk & He) Hc Hr Hf. unfold plane_bit.
  rewrite (Hp (8 * r + f)) by lia. rewrite Ht.
  pose proof (Hk WK) as HWK. pose proof (Hk WQ) as HWQ.
  pose proof (Hk BK) as HBK. pose proof (Hk BQ) as HBQ. cbn in HWK, HWQ, HBK, HBQ.
  rewrite HWK, HWQ, HBK, HBQ.
  unfold ep_file in He.
  destruct (ep_square b) as [sq|], (ep_square b') as [sq'|]; cbn in He; try discriminate.
  - injection He as He. rewrite !square_file_mod in He. now rewrite He.
  - reflexivity.
Qed.

Lemma plane_bit_view b b' :
  (forall c r f, c < 18 -> r < 8 -> f < 8 -> plane_bit b c r f = plane_bit b' c r f) ->
  same_view b b'.
Proof.
  intros Hbits. repeat split.
  - intros sq Hsq. destruct (square_coords sq Hsq) as (Hr & Hf & Heq).
    destruct (piece_at b sq) as [p|] eqn:Hp.
    + pose proof (piece_plane_lt p) as Hlt.
      specialize (Hbits (piece_plane p) (sq / 8) (sq mod 8) ltac:(lia) Hr Hf).
      unfold plane_bit in Hbits. rewrite Heq, Hp in Hbits.
      replace (piece_plane p <? 12) with true in Hbits by (symmetry; now apply Nat.ltb_lt).
      rewrite Nat.eqb_refl in Hbits.
      destruct (piece_at b' sq) as [p'|]; [|discriminate].
      symmetry in Hbits. apply Nat.eqb_eq in Hbits. apply piece_plane_inj in Hbits.
      now subst.
    + destruct (piece_at b' sq) as [p'|] eqn:Hp'; [|reflexivity].
      pose proof (piece_plane_lt p') as Hlt.
      specialize (Hbits (piece_plane p') (sq / 8) (sq mod 8) ltac:(lia) Hr Hf).
      unfold plane_bit in Hbits. rewrite Heq, Hp, Hp' in Hbits.
      replace (piece_plane p' <? 12) with true in Hbits by (symmetry; now apply Nat.ltb_lt).
      rewrite Nat.eqb_refl in Hbits. discriminate.
  - specialize (Hbits 12 0 0 ltac:(lia) ltac:(lia) ltac:(lia)). cbn in Hbits.
    destruct (turn b), (turn b'); cbn in Hbits; try reflexivity; discriminate.
  - intros k.
    destruct k;
      [specialize (Hbits 13 0 0 ltac:(lia) ltac:(lia) ltac:(lia))
      |specialize (Hbits 14 0 0 ltac:(lia) ltac:(lia) ltac:(lia))
      |specialize (Hbits 15 0 0 ltac:(lia) ltac:(lia) ltac:(lia))
      |specialize (Hbits 16 0 0 ltac:(lia) ltac:(lia) ltac:(lia))];
      exact Hbits.
  - unfold ep_file.
    destruct (ep_square b) as [sq|] eqn:He, (ep_square b') as [sq'|] eqn:He'; cbn.
    + pose proof (Nat.mod_upper_bound sq 8 ltac:(lia)) as Hlt.
      specialize (Hbits 17 0 (sq mod 8) ltac:(lia) ltac:(lia) Hlt).
      unfold plane_bit in Hbits. cbn [Nat.ltb Nat.leb Nat.eqb] in Hbits.
      rewrite He, He', Nat.eqb_refl in Hbits.
      symmetry in Hbits. apply Nat.eqb_eq in Hbits.
      rewrite !square_file_mod. now rewrite Hbits.
    + pose proof (Nat.mod_upper_bound sq 8 ltac:(lia)) as Hlt.
      specialize (Hbits 17 0 (sq mod 8) ltac:(lia) ltac:(lia) Hlt).
      unfold plane_bit in Hbits. cbn [Nat.ltb Nat.leb Nat.eqb] in Hbits.
      rewrite He, He', Nat.eqb_refl in Hbits. discriminate.
    + pose proof (Nat.mod_upper_bound sq' 8 ltac:(lia)) as Hlt.
      specialize (Hbits 17 0 (sq' mod 8) ltac:(lia) ltac:(lia) Hlt).
      unfold plane_bit in Hbits. cbn [Nat.ltb Nat.leb Nat.eqb] in Hbits.
      rewrite He, He', Nat.eqb_refl in Hbits. discriminate.
    + reflexivity.
Qed.

(** X3. Two positions have the same encoding exactly when the encoder's
    queries cannot tell them apart: same pieces on the 64 squares, same
    side to move, same four castling permissions and same en-passant
    file.  The rank of the en-passant target and anything the board
    answers for squares beyond 63 do not reach the encoding. *)
Theorem encode_board_eq_iff_same_view (b b' : Board) :
  encode_board b = encode_board b' <-> same_view b b'.
Proof.
  destruct (encode_board_cells b) as (enc & Henc & Hcells).
  destruct (encode_board_cells b') as (enc' & Henc' & Hcells').
  rewrite Henc, Henc'. split.
  - intros [= <-]. apply plane_bit_view. intros c r f Hc Hr Hf.
    destruct Hcells as (_ & _ & _ & Hc1). destruct Hcells' as (_ & _ & _ & Hc2).
    specialize (Hc1 c r f Hc Hr Hf). rewrite Hc2 in Hc1 by done.
    injection Hc1 as Hc1. symmetry. now apply bit_value_inj.
  - intros Hview. f_equal. eapply cells_unique; [exact Hcells|].
    eapply cells_ext; [exact Hcells'|]. intros c r f Hc Hr Hf.
    symmetry. now apply plane_bit_same_view.
Qed.

(** X1. Plane 12 is 1.0 in all 64 cells when White is to move and 0.0
    in all 64 cells when Black is. *)
Theorem encode_board_side_to_move_plane (board : Board) :
  exists enc, encode_board board = Ok enc /\
    forall r f, r < 8 -> f < 8 ->
      np.getitem3 enc SIDE_TO_MOVE_CHANNEL r f =
        Ok (if Bool.eqb (turn board) WHITE then np.f32_one else np.f32_zero).
Proof.
  destruct (encode_board_cells board) as (enc & Henc & Hcells).
  exists enc. split; [done|]. intros r f Hr Hf.
  rewrite (cells_getitem3 _ _ _ _ _ Hcells) by (cbv; lia || done). reflexivity.
Qed.

(** X2. Each of planes 13-16 is 1.0 in all 64 cells when the board
    grants its castling permission (white kingside, white queenside,
    black kingside, black queenside, in this order) and 0.0 in all 64
    cells when it does not. *)
Theorem encode_board_castling_planes (board : Board) :
  exists enc, encode_board board = Ok enc /\
    forall r f, r < 8 -> f < 8 ->
      np.getitem3 enc CASTLING_WK_CHANNEL r f =
        Ok (if has_kingside_castling_rights board WHITE then np.f32_one else np.f32_zero) /\
      np.getitem3 enc CASTLING_WQ_CHANNEL r f =
        Ok (if has_queenside_castling_rights board WHITE then np.f32_one else np.f32_zero) /\
      np.getitem3 enc CASTLING_BK_CHANNEL r f =
        Ok (if has_kingside_castling_rights board BLACK then np.f32_one else np.f32_zero) /\
      np.getitem3 enc CASTLING_BQ_CHANNEL r f =
        Ok (if has_queenside_castling_rights board BLACK then np.f32_one else np.f32_zero).
Proof.
  destruct (encode_board_cells board) as (enc & Henc & Hcells).
  exists enc. split; [done|]. intros r f Hr Hf.
  repeat split; rewrite (cells_getitem3 _ _ _ _ _ Hcells) by (cbv; lia || done); reflexivity.
Qed.

Lemma plane_ext a a' c :
  (forall r f, r < 8 -> f < 8 -> np.getitem3 a c r f = np.getitem3 a' c r f) ->
  plane a c = plane a' c.
Proof.
  intros H. unfold plane. rewrite !flat_map_concat_map. f_equal.
  apply map_ext_in. intros r Hr. apply in_seq in Hr.
  apply map_ext_in. intros f Hf. apply in_seq in Hf. apply H; lia.
Qed.

(** X5. Each group of planes is written from its own query alone:
    planes 0-11 from the pieces, plane 12 from the side to move, each of
    planes 13-16 from its castling permission, plane 17 from the
    en-passant file.  Two positions that agree on one of these have
    that part of the encoding in common, whatever else differs. *)
Theorem encode_board_plane_locality (b b' : Board) :
  exists enc enc', encode_board b = Ok enc /\ encode_board b' = Ok enc' /\
    ((forall sq, sq < 64 -> piece_at b sq = piece_at b' sq) ->
       forall c, c < 12 -> plane enc c = plane enc' c) /\
    (turn b = turn b' -> plane enc 12 = plane enc' 12) /\
    (forall k, has_right b k = has_right b' k ->
       plane enc (castling_plane k) = plane enc' (castling_plane k)) /\
    (ep_file b = ep_file b' -> plane enc 17 = plane enc' 17).
Proof.
  destruct (encode_board_cells b) as (enc & Henc & Hcells).
  destruct (encode_board_cells b') as (enc' & Henc' & Hcells').
  exists enc, enc'. split; [done|]. split; [done|].
  assert (Hget : forall c, c < 18 ->
    (forall r f, r < 8 -> f < 8 -> plane_bit b c r f = plane_bit b' c r f) ->
    plane enc c = plane enc' c).
  { intros c Hc Hbits. apply plane_ext. intros r f Hr Hf.
    rewrite (cells_getitem3 _ _ _ _ _ Hcells), (cells_getitem3 _ _ _ _ _ Hcells') by done.
    now rewrite Hbits. }
  split; [|split; [|split]].
  - intros Hp c Hc. apply Hget; [lia|]. intros r f Hr Hf. unfold plane_bit.
    replace (c <? 12) with true by (symmetry; now apply Nat.ltb_lt).
    now rewrite Hp by lia.
  - intros Ht. apply Hget; [lia|]. intros r f Hr Hf. unfold plane_bit. cbn. now rewrite Ht.
  - intros k Hk. apply Hget; [destruct k; cbn; lia|]. intros r f Hr Hf.
    destruct k; cbn in Hk |- *; exact Hk.
  - intros He. apply Hget; [lia|]. intros r f Hr Hf. unfold plane_bit.
    cbn [Nat.ltb Nat.leb Nat.eqb]. unfold ep_file in He.
    destruct (ep_square b) as [sq|], (ep_square b') as [sq'|]; cbn in He; try discriminate.
    + injection He as He. rewrite !square_file_mod in He. now rewrite He.
    + reflexivity.
Qed.

End EncoderMore.

Section PieceCount.
Import chess board_encoder.

Lemma length_filter_sum {A} (h : A -> bool) l :
  length (List.filter h l) = list_sum (map (fun x => Nat.b2n (h x)) l).
Proof.
  induction l as [|x l IH]; [reflexivity|]. simpl.
  destruct (h x); simpl; lia.
Qed.

Lemma count_ones_bits {A} (h : A -> bool) l :
  count_ones (map (fun x => bit_value (h x)) l) = list_sum (map (fun x => Nat.b2n (h x)) l).
Proof.
  unfold count_ones. induction l as [|x l IH]; [reflexivity|].
  cbn [map List.filter list_sum].
  destruct (h x); cbn [bit_value Nat.b2n].
  - change (SFeqb np.f32_one np.f32_one) with true. cbv iota. cbn [length]. rewrite IH. reflexivity.
  - change (SFeqb np.f32_one np.f32_zero) with false. cbv iota. rewrite IH. reflexivity.
Qed.

Lemma list_sum_flat_map {A B} (k : B -> nat) (F : A -> list B) l :
  list_sum (map k (flat_map F l)) = list_sum (map (fun a => list_sum (map k (F a))) l).
Proof.
  induction l as [|a l IH]; [reflexivity|]. cbn [flat_map map].
  rewrite map_app, list_sum_app. simpl. lia.
Qed.

Lemma list_sum_map_add {A} (f g : A -> nat) l :
  list_sum (map (fun x => f x + g x) l) = list_sum (map f l) + list_sum (map g l).
Proof. induction l as [|x l IH]; simpl; lia. Qed.

Lemma list_sum_swap {A B} (k : A -> B -> nat) (l1 : list A) (l2 : list B) :
  list_sum (map (fun a => list_sum (map (k a) l2)) l1)
  = list_sum (map (fun x => list_sum (map (fun a => k a x) l1)) l2).
Proof.
  induction l1 as [|a l1 IH].
  - induction l2 as [|x l2 IH2]; simpl in *; lia.
  - cbn [map]. change (list_sum (?x :: ?l)) with (x + list_sum l).
    rewrite IH, <- list_sum_map_add. reflexivity.
Qed.

Lemma piece_planes_data b enc :
  cells enc (plane_bit b) ->
  take 768 (np.data enc)
  = map (fun p => bit_value (plane_bit b (p / 8 / 8) ((p / 8) mod 8) (p mod 8))) (seq 0 768).
Proof.
  intros (_ & _ & Hl & Hc). apply list_eq. intros i.
  rewrite list_lookup_fmap.
  destruct (Nat.lt_ge_cases i 768) as [Hi|Hi].
  - rewrite lookup_take_lt by done. rewrite lookup_seq_lt by done. cbn [fmap option_fmap option_map].
    pose proof (Nat.div_mod_eq i 8) as H1.
    pose proof (Nat.div_mod_eq (i / 8) 8) as H2.
    pose proof (Nat.mod_upper_bound i 8 ltac:(lia)) as H3.
    pose proof (Nat.mod_upper_bound (i / 8) 8 ltac:(lia)) as H4.
    assert (Hi' : i = np.offset3 8 8 (i / 8 / 8) ((i / 8) mod 8) (i mod 8))
      by (unfold np.offset3; lia).
    rewrite Hi' at 1. rewrite Hc by lia. reflexivity.
  - rewrite lookup_take_ge by done. rewrite lookup_seq_ge by done. reflexivity.
Qed.

Lemma seq_768 :
  seq 0 768 = flat_map (fun c => map (fun sq => 64 * c + sq) (seq 0 64)) (seq 0 12).
Proof. vm_compute. reflexivity. Qed.

Lemma plane_sum_occupied b sq :
  list_sum (map (fun c => Nat.b2n match piece_at b sq with
                                  | Some p => piece_plane p =? c
                                  | None => false
                                  end) (seq 0 12))
  = Nat.b2n (occupied b sq).
Proof.
  unfold occupied. destruct (piece_at b sq) as [[[] []]|]; reflexivity.
Qed.

(** X4. The number of cells holding 1.0 in planes 0-11 is the number of
    occupied squares of the board: every piece is written, none twice,
    and nothing else is. *)
Theorem encode_board_piece_count (board : Board) :
  exists enc, encode_board board = Ok enc /\
    count_ones (take (12 * 8 * 8) (np.data enc)) = length (occupied_squares board).
Proof.
  destruct (encode_board_cells board) as (enc & Henc & Hcells).
  exists enc. split; [done|].
  change (12 * 8 * 8) with 768.
  rewrite (piece_planes_data _ _ Hcells), count_ones_bits.
  rewrite seq_768, (list_sum_flat_map _ _ (seq 0 12)).
  erewrite map_ext_in.
  2:{ intros c Hc. apply in_seq in Hc. rewrite map_map.
      erewrite map_ext_in; [reflexivity|]. intros sq Hsq. apply in_seq in Hsq. cbv beta.
      set (p := 64 * c + sq).
      pose proof (Nat.div_mod_eq p 8) as H1.
      pose proof (Nat.div_mod_eq (p / 8) 8) as H2.
      pose proof (Nat.mod_upper_bound p 8 ltac:(lia)) as H3.
      pose proof (Nat.mod_upper_bound (p / 8) 8 ltac:(lia)) as H4.
      assert (Hq : p / 8 / 8 = c) by lia.
      assert (Hs : 8 * ((p / 8) mod 8) + p mod 8 = sq) by lia.
      unfold plane_bit. rewrite Hq, Hs.
      replace (c <? 12) with true by (symmetry; apply Nat.ltb_lt; lia).
      reflexivity. }
  etransitivity;
    [exact (list_sum_swap
       (fun c sq => Nat.b2n match piece_at board sq with
                            | Some p => piece_plane p =? c
                            | None => false
                            end) (seq 0 12) (seq 0 64))|].
  erewrite map_ext; [|intros sq; apply plane_sum_occupied].
  unfold occupied_squares, SQUARES. now rewrite length_filter_sum.
Qed.

End PieceCount.

Section TensorEncoding.
Import chess board_encoder torch_device.

Lemma encode_board_tensor_available backends board d :
  is_available backends d = true ->
  exists enc, encode_board board = Ok enc /\
    encode_board_tensor backends board d
      = Ok (mkPlaced (torch.mkTensor [18; 8; 8] (np.data enc)) d) /\
    length (np.data enc) = 1152.
Proof.
  intros Hd. destruct (encode_board_cells board) as (enc & Henc & Hcells).
  exists enc. unfold encode_board_tensor. rewrite Henc. cbn [mbind Result_bind].
  destruct Hcells as (_ & Hs & Hl & _). unfold to, from_numpy. rewrite Hd. cbn [payload].
  now rewrite Hs.
Qed.


End TensorEncoding.

Section BlockMore.
Import torch model.

Lemma Conv2d_forward_wf K m C Co Kn pad x B H W :
  Conv2d_wf m C Co Kn pad -> 1 <= Co -> shape x = [B; C; H; W] ->
  Kn <= H + 2 * pad -> Kn <= W + 2 * pad ->
  exists y, Conv2d_forward K m x = Ok y /\
    shape y = [B; Co; H + 2 * pad + 1 - Kn; W + 2 * pad + 1 - Kn] /\
    length (data y) = B * (Co * ((H + 2 * pad + 1 - Kn) * (W + 2 * pad + 1 - Kn))).
Proof.
  intros Hwf HCo Hx HH HW. rewrite (Conv2d_forward_4d K _ _ _ _ _ _ _ _ _ Hwf HCo Hx HH HW).
  eexists. split; [reflexivity|]. cbn [shape data]. split; [done|].
  rewrite (length_concat_imap _ _
    (Co * ((H + 2 * pad + 1 - Kn) * (W + 2 * pad + 1 - Kn)))).
  - now rewrite length_chunks.
  - intros n s _. apply length_conv2d_sample.
Qed.

Lemma BatchNorm2d_forward_wf K m C training x B H W :
  BatchNorm2d_wf m C -> shape x = [B; C; H; W] -> length (data x) = B * (C * (H * W)) ->
  (training = true -> B * (H * W) <> 1) ->
  exists y, BatchNorm2d_forward K m training x = Ok y /\
    shape y = [B; C; H; W] /\ length (data y) = B * (C * (H * W)).
Proof.
  intros Hwf Hx Hl Ht.
  rewrite (BatchNorm2d_forward_4d K _ _ training x B H W Hwf Hx Ht).
  eexists. split; [reflexivity|]. cbn [shape data]. split; [done|].
  rewrite (length_flat_map_uniform _ _ (C * (H * W))).
  - now rewrite length_chunks.
  - intros s Hs. apply length_batch_norm_sample.
    eapply chunks_uniform; [|exact Hs]. done.
Qed.

Lemma relu_not_negative x : Forall (fun v => f32.ltb v f32.zero = false) (data (relu x)).
Proof.
  cbn [relu data]. apply Forall_map, List.Forall_forall. intros v _. cbv beta.
  unfold relu_f32. now destruct (f32.ltb v f32.zero) eqn:Hv.
Qed.

(** A block without filters, [ResidualBlock(0)], raises on every
    input: its first convolution has no output channel. *)
Lemma ResidualBlock_forward_no_filters K b training x :
  ResidualBlock_wf 0 b -> ResidualBlock_forward K b training x = Raise RuntimeError.
Proof.
  intros ([[Hw _] _] & _). unfold ResidualBlock_forward, Conv2d_forward. rewrite Hw.
  cbn [Nat.leb andb]. now destruct (shape x) as [|? [|? [|? [|? [|? ?]]]]].
Qed.

(** X7. A residual block with at least one filter keeps the shape of
    its input, whatever the batch and plane sizes; no element of its
    output is below zero (each is zero, positive or NaN); and when the
    input holds as many numbers as its shape says, so does the
    output. *)
Theorem ResidualBlock_forward_preserves_shape (K : Kernels) (b : ResidualBlock) (F : nat)
  (training : bool) (x : Tensor) (B H W : nat) :
  1 <= F -> ResidualBlock_wf F b -> shape x = [B; F; H; W] -> 1 <= H -> 1 <= W ->
  (training = true -> B * (H * W) <> 1) ->
  exists y, ResidualBlock_forward K b training x = Ok y /\
    shape y = shape x /\
    Forall (fun v => f32.ltb v f32.zero = false) (data y) /\
    (Tensor_wf x -> Tensor_wf y).
Proof.
  intros HF (Hc1 & Hb1 & Hc2 & Hb2) Hx HH HW Ht. unfold ResidualBlock_forward.
  destruct (Conv2d_forward_wf K _ _ _ _ _ x B H W Hc1 HF Hx) as (y1 & -> & Hs1 & Hl1);
    [lia..|].
  replace (H + 2 * 1 + 1 - 3) with H in Hs1, Hl1 by lia.
  replace (W + 2 * 1 + 1 - 3) with W in Hs1, Hl1 by lia.
  cbn [mbind Result_bind].
  destruct (BatchNorm2d_forward_wf K _ _ training y1 B H W Hb1 Hs1 Hl1 Ht)
    as (y2 & -> & Hs2 & Hl2).
  cbn [mbind Result_bind].
  destruct (Conv2d_forward_wf K _ _ _ _ _ (relu y2) B H W Hc2 HF Hs2)
    as (y3 & -> & Hs3 & Hl3); [lia..|].
  replace (H + 2 * 1 + 1 - 3) with H in Hs3, Hl3 by lia.
  replace (W + 2 * 1 + 1 - 3) with W in Hs3, Hl3 by lia.
  cbn [mbind Result_bind].
  destruct (BatchNorm2d_forward_wf K _ _ training y3 B H W Hb2 Hs3 Hl3 Ht)
    as (y4 & -> & Hs4 & Hl4).
  cbn [mbind Result_bind].
  rewrite add_ok by congruence. cbn [mbind Result_bind].
  eexists. split; [reflexivity|]. split; [cbn [relu shape]; congruence|].
  split; [apply relu_not_negative|].
  unfold Tensor_wf. cbn [relu shape data]. rewrite Hs4, Hx, numel4. intros Hwf.
  rewrite length_map, length_zip_with. lia.
Qed.

Lemma ResidualBlock_forward_preserves_shape_witness :
  exists y,
    ResidualBlock_forward sequential (ResidualBlock_init 4 counting_generator).1 true
      (full [2; 4; 5; 3] f32.one) = Ok y /\
    shape y = shape (full [2; 4; 5; 3] f32.one) /\
    Forall (fun v => f32.ltb v f32.zero = false) (data y) /\
    (Tensor_wf (full [2; 4; 5; 3] f32.one) -> Tensor_wf y).
Proof.
  apply (ResidualBlock_forward_preserves_shape sequential _ 4 true _ 2 5 3).
  - lia.
  - apply (ResidualBlock_init_wf 4 counting_generator _
             (ResidualBlock_init 4 counting_generator).2).
    now destruct (ResidualBlock_init 4 counting_generator).
  - reflexivity.
  - lia.
  - lia.
  - intros _. cbn. lia.
Defined.

(** X8. What a residual block rejects.  Without filters,
    [ResidualBlock(0)], every input is a RuntimeError.  With at least
    one filter: a batch whose channel count is not the block's is a
    RuntimeError; a single sample without the batch dimension is a
    ValueError, raised by the normalisation after the first convolution
    has accepted it; in training mode a batch with one value per
    channel (one sample with 1 x 1 planes) is a ValueError, while
    inference mode accepts it. *)
Theorem ResidualBlock_forward_rejects (K : Kernels) (b : ResidualBlock) (F : nat)
  (training : bool) (x : Tensor) :
  ResidualBlock_wf F b ->
  (F = 0 -> ResidualBlock_forward K b training x = Raise RuntimeError) /\
  (1 <= F ->
     (forall B C H W, shape x = [B; C; H; W] -> C <> F ->
        ResidualBlock_forward K b training x = Raise RuntimeError) /\
     (forall H W, shape x = [F; H; W] -> 1 <= H -> 1 <= W ->
        ResidualBlock_forward K b training x = Raise ValueError) /\
     (shape x = [1; F; 1; 1] ->
        if training then ResidualBlock_forward K b training x = Raise ValueError
        else exists y, ResidualBlock_forward K b training x = Ok y /\
                       shape y = [1; F; 1; 1])).
Proof.
  intros Hwf. split.
  { intros ->. now apply ResidualBlock_forward_no_filters. }
  intros HF. pose proof Hwf as (Hc1 & Hb1 & Hc2 & Hb2).
  destruct Hc1 as [[Hw1 _] Hp1]. split; [|split].
  - intros B C H W Hx HC. unfold ResidualBlock_forward, Conv2d_forward.
    rewrite Hw1, Hx. replace (C =? F) with false by (symmetry; now apply Nat.eqb_neq).
    rewrite andb_false_r. reflexivity.
  - intros H W Hx HH HW. unfold ResidualBlock_forward, Conv2d_forward.
    rewrite Hw1, Hx, Hp1, Nat.eqb_refl.
    replace (1 <=? F) with true by (symmetry; apply Nat.leb_le; lia).
    replace (3 <=? H + 2 * 1) with true by (symmetry; apply Nat.leb_le; lia).
    replace (3 <=? W + 2 * 1) with true by (symmetry; apply Nat.leb_le; lia).
    reflexivity.
  - intros Hx. destruct training.
    + unfold ResidualBlock_forward.
      destruct (Conv2d_forward_ok K _ _ _ _ _ x 1 1 1 (proj1 Hwf) HF Hx) as (y1 & -> & Hs1);
        [lia..|].
      cbn [mbind Result_bind]. unfold BatchNorm2d_forward. rewrite Hs1. reflexivity.
    + destruct (ResidualBlock_forward_ok K b F false x 1 1 1 HF Hwf Hx) as (y & Hy & Hs);
        [lia | lia | discriminate |].
      exists y. done.
Qed.

Lemma ResidualBlock_forward_rejects_witness :
  (4 = 0 ->
     ResidualBlock_forward sequential (ResidualBlock_init 4 counting_generator).1 true
       (full [2; 3; 8; 8] f32.one) = Raise RuntimeError) /\
  (1 <= 4 ->
     (forall B C H W, shape (full [2; 3; 8; 8] f32.one) = [B; C; H; W] -> C <> 4 ->
        ResidualBlock_forward sequential (ResidualBlock_init 4 counting_generator).1 true
          (full [2; 3; 8; 8] f32.one) = Raise RuntimeError) /\
     (forall H W, shape (full [2; 3; 8; 8] f32.one) = [4; H; W] -> 1 <= H -> 1 <= W ->
        ResidualBlock_forward sequential (ResidualBlock_init 4 counting_generator).1 true
          (full [2; 3; 8; 8] f32.one) = Raise ValueError) /\
     (shape (full [2; 3; 8; 8] f32.one) = [1; 4; 1; 1] ->
        if true
        then ResidualBlock_forward sequential (ResidualBlock_init 4 counting_generator).1
               true (full [2; 3; 8; 8] f32.one) = Raise ValueError
        else exists y,
          ResidualBlock_forward sequential (ResidualBlock_init 4 counting_generator).1 true
            (full [2; 3; 8; 8] f32.one) = Ok y /\ shape y = [1; 4; 1; 1])).
Proof.
  apply (ResidualBlock_forward_rejects sequential _ 4 true).
  apply (ResidualBlock_init_wf 4 counting_generator _
           (ResidualBlock_init 4 counting_generator).2).
  now destruct (ResidualBlock_init 4 counting_generator).
Defined.

End BlockMore.

Section ForwardMore.
Import torch model.

Lemma policy_head_raises (K : Kernels) m F training x B H W :
  ChessNet_wf F m -> shape x = [B; F; H; W] -> 1 <= H -> 1 <= W ->
  (training = true -> B * (H * W) <> 1) ->
  B = 0 \/ H * W <> 64 ->
  policy_head K m training x = Raise RuntimeError.
Proof.
  intros (_ & _ & _ & _ & Hc & Hb & Hl & _) Hx HH HW Ht Hbad. unfold policy_head.
  destruct (Conv2d_forward_ok K _ _ _ _ _ x B H W Hc ltac:(lia) Hx) as (y1 & -> & Hy1);
    [lia..|].
  replace (H + 2 * 0 + 1 - 1) with H in Hy1 by lia.
  replace (W + 2 * 0 + 1 - 1) with W in Hy1 by lia.
  cbn [mbind Result_bind].
  destruct (BatchNorm2d_forward_ok K _ _ training y1 B H W Hb Hy1 Ht) as (y2 & -> & Hy2).
  cbn [mbind Result_bind]. unfold size0. cbn [relu shape]. rewrite Hy2.
  cbn [mbind Result_bind].
  destruct (Nat.eq_dec B 0) as [->|HB]; [reflexivity|].
  destruct Hbad as [HB0|HHW]; [done|].
  rewrite (view_rows_4d _ B 2 H W) by done. cbn [mbind Result_bind].
  erewrite Linear_forward_2d by (done || reflexivity).
  replace (2 * (H * W) =? 128) with false by (symmetry; apply Nat.eqb_neq; lia).
  reflexivity.
Qed.

(** X9. Which exception [forward] raises.  On a 4-D input whose channel
    count is not 18: RuntimeError, from the first convolution.  On a
    single encoded position without batch dimension, shape (18, H, W):
    ValueError, from the first normalisation.  On a non-empty batch of
    18-channel planes that do not have 64 cells: RuntimeError, from the
    linear layer of the policy head.  On an empty batch, in inference
    mode: RuntimeError, from [view] in the policy head. *)
Theorem forward_exceptions (K : Kernels) (m : ChessNet) (F : nat) (training : bool)
  (x : Tensor) :
  ChessNet_wf F m ->
  (forall B C H W, shape x = [B; C; H; W] -> C <> 18 ->
     forward K m training x = Raise RuntimeError) /\
  (forall H W, shape x = [18; H; W] -> 1 <= H -> 1 <= W ->
     forward K m training x = Raise ValueError) /\
  (forall B H W, shape x = [B; 18; H; W] -> 1 <= B -> 1 <= H -> 1 <= W ->
     (training = true -> B * (H * W) <> 1) -> H * W <> 64 ->
     forward K m training x = Raise RuntimeError) /\
  (forall H W, shape x = [0; 18; H; W] -> 1 <= H -> 1 <= W -> training = false ->
     forward K m training x = Raise RuntimeError).
Proof.
  intros Hwf. pose proof Hwf as (HF & [[Hw _] Hp] & _). split; [|split; [|split]].
  - intros B C H W Hx HC. unfold forward, Conv2d_forward.
    rewrite Hw, Hx. replace (C =? 18) with false by (symmetry; now apply Nat.eqb_neq).
    rewrite andb_false_r. reflexivity.
  - intros H W Hx HH HW. unfold forward, Conv2d_forward.
    rewrite Hw, Hx, Hp, Nat.eqb_refl.
    replace (1 <=? F) with true by (symmetry; apply Nat.leb_le; lia).
    replace (3 <=? H + 2 * 1) with true by (symmetry; apply Nat.leb_le; lia).
    replace (3 <=? W + 2 * 1) with true by (symmetry; apply Nat.leb_le; lia).
    reflexivity.
  - intros B H W Hx HB HH HW Ht Hbad. rewrite forward_stages.
    destruct (input_projection_ok K m F training x B H W Hwf Hx HH HW Ht) as (y0 & -> & Hy0).
    cbn [mbind Result_bind].
    destruct (tower_ok K (residual_blocks m) F training y0 B H W) as (y1 & -> & Hy1);
      [done | apply Hwf | done..|].
    cbn [mbind Result_bind].
    now rewrite (policy_head_raises K m F training y1 B H W Hwf Hy1 HH HW Ht (or_intror Hbad)).
  - intros H W Hx HH HW ->. rewrite forward_stages.
    destruct (input_projection_ok K m F false x 0 H W Hwf Hx HH HW) as (y0 & -> & Hy0);
      [discriminate|].
    cbn [mbind Result_bind].
    destruct (tower_ok K (residual_blocks m) F false y0 0 H W) as (y1 & -> & Hy1);
      [done | apply Hwf | done | done | done | discriminate |].
    cbn [mbind Result_bind].
    rewrite (policy_head_raises K m F false y1 0 H W Hwf Hy1 HH HW); [done | discriminate | now left].
Qed.

Lemma forward_exceptions_witness :
  (forall B C H W, shape (full [18; 8; 8] f32.one) = [B; C; H; W] -> C <> 18 ->
     forward sequential (ChessNet_init 6 128 counting_generator) false (full [18; 8; 8] f32.one)
       = Raise RuntimeError) /\
  (forall H W, shape (full [18; 8; 8] f32.one) = [18; H; W] -> 1 <= H -> 1 <= W ->
     forward sequential (ChessNet_init 6 128 counting_generator) false (full [18; 8; 8] f32.one)
       = Raise ValueError) /\
  (forall B H W, shape (full [18; 8; 8] f32.one) = [B; 18; H; W] -> 1 <= B -> 1 <= H -> 1 <= W ->
     (false = true -> B * (H * W) <> 1) -> H * W <> 64 ->
     forward sequential (ChessNet_init 6 128 counting_generator) false (full [18; 8; 8] f32.one)
       = Raise RuntimeError) /\
  (forall H W, shape (full [18; 8; 8] f32.one) = [0; 18; H; W] -> 1 <= H -> 1 <= W ->
     false = false ->
     forward sequential (ChessNet_init 6 128 counting_generator) false (full [18; 8; 8] f32.one)
       = Raise RuntimeError).
Proof.
  apply (forward_exceptions sequential (ChessNet_init 6 128 counting_generator) 128 false).
  apply ChessNet_init_wf. lia.
Defined.

Lemma input_projection_same (K : Kernels) m m' training x :
  initial_conv m = initial_conv m' -> initial_bn m = initial_bn m' ->
  input_projection K m training x = input_projection K m' training x.
Proof. intros H1 H2. unfold input_projection. now rewrite H1, H2. Qed.

Lemma policy_head_same (K : Kernels) m m' training x :
  policy_conv m = policy_conv m' -> policy_bn m = policy_bn m' -> policy_fc m = policy_fc m' ->
  policy_head K m training x = policy_head K m' training x.
Proof. intros H1 H2 H3. unfold policy_head. now rewrite H1, H2, H3. Qed.

Lemma value_head_same (K : Kernels) m m' training x :
  value_conv m = value_conv m' -> value_bn m = value_bn m' ->
  value_fc1 m = value_fc1 m' -> value_fc2 m = value_fc2 m' ->
  value_head K m training x = value_head K m' training x.
Proof. intros H1 H2 H3 H4. unfold value_head. now rewrite H1, H2, H3, H4. Qed.

(** X10. The two heads do not feed each other.  Two networks with the
    same trunk and the same policy head return the same policy logits
    whenever both return, whatever their value heads; two networks with
    the same trunk and the same value head return the same value. *)
Theorem forward_heads_independent (K : Kernels) (m m' : ChessNet) (training : bool)
  (x : Tensor) :
  (same_policy_path m m' ->
     match forward K m training x, forward K m' training x with
     | Ok (policy, _), Ok (policy', _) => policy = policy'
     | _, _ => True
     end) /\
  (same_value_path m m' ->
     match forward K m training x, forward K m' training x with
     | Ok (_, value), Ok (_, value') => value = value'
     | _, _ => True
     end).
Proof.
  split.
  - intros (H1 & H2 & H3 & H4 & H5 & H6). rewrite !forward_stages, <- H3.
    rewrite <- (input_projection_same K m m' training x H1 H2).
    destruct (input_projection K m training x) as [y0|]; cbn [mbind Result_bind]; [|done].
    destruct (tower K (residual_blocks m) training y0) as [y1|]; cbn [mbind Result_bind]; [|done].
    rewrite <- (policy_head_same K m m' training y1 H4 H5 H6).
    destruct (policy_head K m training y1) as [p|]; cbn [mbind Result_bind]; [|done].
    destruct (value_head K m training y1) as [v|], (value_head K m' training y1) as [v'|];
      cbn [mbind Result_bind]; done.
  - intros (H1 & H2 & H3 & H4 & H5 & H6 & H7). rewrite !forward_stages, <- H3.
    rewrite <- (input_projection_same K m m' training x H1 H2).
    destruct (input_projection K m training x) as [y0|]; cbn [mbind Result_bind]; [|done].
    destruct (tower K (residual_blocks m) training y0) as [y1|]; cbn [mbind Result_bind]; [|done].
    rewrite <- (value_head_same K m m' training y1 H4 H5 H6 H7).
    destruct (policy_head K m training y1) as [p|], (policy_head K m' training y1) as [p'|];
      cbn [mbind Result_bind]; try done;
      destruct (value_head K m training y1) as [v|]; cbn [mbind Result_bind]; done.
Qed.






(** X12. The number of trainable parameters of a freshly built
    network with [N] blocks and [F] filters is
    167 F + max(0, N) (18 F^2 + 4 F) + 545287, whatever the initial
    values: each residual block adds 18 F^2 + 4 F, and a negative block
    count counts as zero.  For the default configuration, 6 blocks of
    128 filters, this is 2339207, between the 1.5 and 3 millions the
    tests ask for. *)
Theorem count_parameters_closed_form (N : Z) (F : nat) (g : Generator) :
  count_parameters (ChessNet_init N F g)
  = (167 * Z.of_nat F + Z.max 0 N * (18 * Z.of_nat F * Z.of_nat F + 4 * Z.of_nat F)
     + 545287)%Z /\
  count_parameters (ChessNet_init DEFAULT_NUM_BLOCKS DEFAULT_NUM_FILTERS g) = 2339207%Z /\
  (1500000 <= count_parameters (ChessNet_init DEFAULT_NUM_BLOCKS DEFAULT_NUM_FILTERS g)
           <= 3000000)%Z.
Proof.
  split; [apply count_parameters_init|].
  rewrite count_parameters_init. unfold DEFAULT_NUM_BLOCKS, DEFAULT_NUM_FILTERS.
  change (Z.of_nat 128) with 128%Z. lia.
Qed.

End ForwardMore.

Section Pipeline.
Import torch model.

Lemma encode_board_tensor_shape backends board d :
  torch_device.is_available backends d = true ->
  exists t, encode_board_tensor backends board d = Ok t /\
    torch_device.on t = d /\
    shape (torch_device.payload t) = [18; 8; 8] /\
    length (data (torch_device.payload t)) = 18 * 8 * 8.
Proof.
  intros Hd.
  destruct (encode_board_tensor_available backends board d Hd) as (enc & _ & Ht & Hl).
  eexists. split; [exact Ht|]. cbn [torch_device.on torch_device.payload shape data].
  done.
Qed.

(** X13. The encoder feeds the network.  For every position and every
    network with well-shaped parameters, held by an available device,
    in both modes: the tensor of the position, made on the device of
    the network and given a batch dimension by [unsqueeze(0)], is
    accepted by [forward], which returns a policy of shape (1, 4096)
    and a value of shape (1, 1) whose one element is NaN or lies in
    [-1, 1]. *)
Theorem encoded_position_forward (K : Kernels) (backends : torch_device.Backends)
  (pm : torch_device.Placed ChessNet) (F : nat) (training : bool) (board : chess.Board) :
  tanh_in_range K -> ChessNet_wf F (torch_device.payload pm) ->
  torch_device.is_available backends (torch_device.on pm) = true ->
  exists t policy value,
    encode_board_tensor backends board (torch_device.on pm) = Ok t /\
    torch_device.on t = torch_device.on pm /\
    forward K (torch_device.payload pm) training
      (torch_device.unsqueeze0 (torch_device.payload t)) = Ok (policy, value) /\
    shape policy = [1; 4096] /\ shape value = [1; 1] /\
    exists v, data value = [v] /\
      (v = S754_nan \/ f32.between (f32.opp f32.one) f32.one v = true).
Proof.
  intros HK Hwf Hon.
  destruct (encode_board_tensor_shape backends board _ Hon) as (t & Ht & Hd & Hs & _).
  destruct (forward_ok K (torch_device.payload pm) F training
              (torch_device.unsqueeze0 (torch_device.payload t)) 1 8 8 Hwf)
    as (p & v & Hfwd & Hp & Hv);
    [cbn [torch_device.unsqueeze0 shape]; now rewrite Hs | lia | reflexivity |].
  exists t, p, v. repeat split; try done.
  destruct (forward_outputs_wf K _ _ _ _ _ Hfwd) as [_ Hvw].
  unfold Tensor_wf in Hvw. rewrite Hv in Hvw. cbn in Hvw.
  pose proof (forward_value_range K _ _ _ _ _ HK Hfwd) as Hr.
  destruct (data v) as [|v0 [|? ?]]; try discriminate.
  exists v0. split; [reflexivity|]. now apply Forall_cons_1 in Hr as [? _].
Qed.

Lemma encoded_position_forward_witness :
  exists t policy value,
    encode_board_tensor (torch_device.mkBackends true false) after_e4
      (torch_device.on
         (torch_device.mkPlaced (ChessNet_init 6 128 counting_generator) torch_device.mps))
      = Ok t /\
    torch_device.on t
      = torch_device.on
          (torch_device.mkPlaced (ChessNet_init 6 128 counting_generator) torch_device.mps) /\
    forward sequential
      (torch_device.payload
         (torch_device.mkPlaced (ChessNet_init 6 128 counting_generator) torch_device.mps))
      false (torch_device.unsqueeze0 (torch_device.payload t)) = Ok (policy, value) /\
    shape policy = [1; 4096] /\ shape value = [1; 1] /\
    exists v, data value = [v] /\
      (v = S754_nan \/ f32.between (f32.opp f32.one) f32.one v = true).
Proof.
  apply (encoded_position_forward sequential (torch_device.mkBackends true false)
           (torch_device.mkPlaced (ChessNet_init 6 128 counting_generator) torch_device.mps)
           128 false after_e4).
  - apply sequential_tanh_in_range.
  - apply ChessNet_init_wf. lia.
  - reflexivity.
Defined.

Lemma stack_uniform ts sh :
  ts <> [] -> Forall (fun t => shape t = sh) ts ->
  torch_device.stack ts = Ok (stack sh (map data ts)).
Proof.
  intros Hne Hsh. destruct ts as [|t rest]; [done|].
  apply Forall_cons_1 in Hsh as [Ht Hrest]. unfold torch_device.stack.
  replace (forallb _ rest) with true.
  2:{ symmetry. apply forallb_forall. intros u Hu. apply bool_decide_eq_true.
      rewrite Ht. eapply (proj1 (List.Forall_forall _ rest) Hrest). done. }
  unfold stack. rewrite length_map, Ht, flat_map_concat_map. reflexivity.
Qed.

Lemma unsqueeze0_stack t sh :
  shape t = sh -> torch_device.unsqueeze0 t = stack sh [data t].
Proof.
  intros <-. unfold torch_device.unsqueeze0, stack. cbn [length concat].
  now rewrite app_nil_r.
Qed.

(** X14. A batch of encoded positions.  For every non-empty list of
    positions and every network with well-shaped parameters, held by
    an available device, in inference mode: the positions' tensors,
    made on the device of the network, stack into a batch of shape
    (n, 18, 8, 8); [forward] returns a policy of shape (n, 4096) and a
    value of shape (n, 1) whose elements are NaN or lie in [-1, 1];
    and, with kernels whose inner products do not depend on the batch,
    row [i] of both is what [forward] returns for position [i] alone
    with [unsqueeze(0)]. *)
Theorem encoded_batch_forward (K : Kernels) (backends : torch_device.Backends)
  (pm : torch_device.Placed ChessNet) (F : nat) (boards : list chess.Board) :
  tanh_in_range K -> ChessNet_wf F (torch_device.payload pm) ->
  torch_device.is_available backends (torch_device.on pm) = true -> boards <> [] ->
  exists ts x policy value,
    Forall2 (fun board t =>
               encode_board_tensor backends board (torch_device.on pm) = Ok t /\
               torch_device.on t = torch_device.on pm) boards ts /\
    torch_device.stack (map torch_device.payload ts) = Ok x /\
    shape x = [length boards; 18; 8; 8] /\
    forward K (torch_device.payload pm) false x = Ok (policy, value) /\
    shape policy = [length boards; 4096] /\ shape value = [length boards; 1] /\
    Forall (fun v => v = S754_nan \/ f32.between (f32.opp f32.one) f32.one v = true)
      (data value) /\
    (batch_independent K ->
     forall i t, ts !! i = Some t ->
       exists p1 v1,
         forward K (torch_device.payload pm) false
           (torch_device.unsqueeze0 (torch_device.payload t)) = Ok (p1, v1) /\
         row 4096 i policy = data p1 /\ row 1 i value = data v1).
Proof.
  destruct pm as [m dm]. cbn [torch_device.payload torch_device.on].
  intros HK Hwf Hon Hne.
  assert (Hts : exists ts,
    Forall2 (fun board t => encode_board_tensor backends board dm = Ok t /\
                            torch_device.on t = dm) boards ts /\
    Forall (fun t => shape (torch_device.payload t) = [18; 8; 8] /\
                     length (data (torch_device.payload t)) = 18 * 8 * 8) ts).
  { clear Hne. induction boards as [|b boards IH].
    - exists []. split; constructor.
    - destruct IH as (ts & H2 & Hall).
      destruct (encode_board_tensor_shape backends b dm Hon) as (t & Ht & Hd & Hs & Hl).
      exists (t :: ts). split; constructor; done. }
  destruct Hts as (ts & H2 & Hall).
  pose proof (Forall2_length _ _ _ H2) as Hlen.
  set (xs := map data (map torch_device.payload ts)).
  assert (Hxs : Forall (fun s => length s = 18 * 8 * 8) xs).
  { subst xs. rewrite map_map. apply Forall_map. eapply Forall_impl; [exact Hall|].
    intros t [_ Hl]. exact Hl. }
  assert (Hxne : xs <> []).
  { subst xs. destruct boards; [done|]. destruct ts; [discriminate|]. discriminate. }
  assert (Hlx : length xs = length boards).
  { subst xs. now rewrite !length_map. }
  destruct (forward_ok K m F false (stack [18; 8; 8] xs) (length xs) 8 8 Hwf eq_refl)
    as (p & v & Hfwd & Hp & Hv); [destruct xs; [done | cbn; lia] | reflexivity |].
  exists ts, (stack [18; 8; 8] xs), p, v.
  split; [exact H2|]. split.
  { apply stack_uniform.
    - destruct boards; [done|]. destruct ts; discriminate.
    - apply Forall_map. eapply Forall_impl; [exact Hall|]. intros t [Hs _]. exact Hs. }
  split; [cbn [stack shape]; now rewrite Hlx|].
  split; [exact Hfwd|]. rewrite <- Hlx.
  split; [done|]. split; [done|].
  split; [eapply forward_value_range; eauto|].
  intros HKb i t Hi.
  destruct (forward_eval_stack K m F xs HKb Hwf Hxne Hxs) as [Hfwd' Hrow].
  rewrite Hfwd in Hfwd'. injection Hfwd' as -> ->.
  assert (Ht : shape (torch_device.payload t) = [18; 8; 8] /\
               length (data (torch_device.payload t)) = 18 * 8 * 8).
  { eapply (proj1 (Forall_lookup _ ts) Hall); eauto. }
  destruct Ht as [Hs Hl].
  rewrite (unsqueeze0_stack _ _ Hs).
  destruct (forward_eval_stack K m F [data (torch_device.payload t)] HKb Hwf) as [Hfwd1 _];
    [discriminate | now constructor |].
  eexists _, _. split; [exact Hfwd1|]. cbn [data map concat]. rewrite !app_nil_r.
  assert (Hxi : xs !! i = Some (data (torch_device.payload t))).
  { subst xs. now rewrite !list_lookup_fmap, Hi. }
  unfold row. cbn [data]. split.
  - apply row_concat; [|now rewrite list_lookup_fmap, Hxi].
    intros z Hz. apply in_map_iff in Hz as (y & <- & Hy). now apply Hrow.
  - apply row_concat; [|now rewrite list_lookup_fmap, Hxi].
    intros z Hz. apply in_map_iff in Hz as (y & <- & Hy). now apply Hrow.
Qed.

Lemma encoded_batch_forward_witness :
  exists ts x policy value,
    Forall2 (fun board t =>
               encode_board_tensor (torch_device.mkBackends false false) board
                 (torch_device.on
                    (torch_device.mkPlaced (ChessNet_init 6 128 counting_generator)
                       torch_device.cpu)) = Ok t /\
               torch_device.on t
                 = torch_device.on
                     (torch_device.mkPlaced (ChessNet_init 6 128 counting_generator)
                        torch_device.cpu))
      [starting_board; after_e4; kings_only] ts /\
    torch_device.stack (map torch_device.payload ts) = Ok x /\
    shape x = [length [starting_board; after_e4; kings_only]; 18; 8; 8] /\
    forward sequential
      (torch_device.payload
         (torch_device.mkPlaced (ChessNet_init 6 128 counting_generator) torch_device.cpu))
      false x = Ok (policy, value) /\
    shape policy = [length [starting_board; after_e4; kings_only]; 4096] /\
    shape value = [length [starting_board; after_e4; kings_only]; 1] /\
    Forall (fun v => v = S754_nan \/ f32.between (f32.opp f32.one) f32.one v = true)
      (data value) /\
    (batch_independent sequential ->
     forall i t, ts !! i = Some t ->
       exists p1 v1,
         forward sequential
           (torch_device.payload
              (torch_device.mkPlaced (ChessNet_init 6 128 counting_generator)
                 torch_device.cpu))
           false (torch_device.unsqueeze0 (torch_device.payload t)) = Ok (p1, v1) /\
         row 4096 i policy = data p1 /\ row 1 i value = data v1).
Proof.
  apply (encoded_batch_forward sequential (torch_device.mkBackends false false)
           (torch_device.mkPlaced (ChessNet_init 6 128 counting_generator) torch_device.cpu)
           128 [starting_board; after_e4; kings_only]).
  - apply sequential_tanh_in_range.
  - apply ChessNet_init_wf. lia.
  - reflexivity.
  - discriminate.
Defined.




End Pipeline.
